(** * Pywen completion-signalling hooks

    A shallow embedding of the two hook scripts
    [pywen/script/pywen_userprompt.py] (the UserPromptSubmit hook, which
    records a case identifier for a session) and
    [pywen/script/pywen_stop.py] (the Stop hook, which resolves the case
    identifier and emits the completion record), together with the
    properties of the session-case registry and of the completion-signal
    emitter.

    Python values are modelled as follows.
    - A [str] is the list of its code points ([N]); a Python string may hold
      lone surrogates (U+D800..U+DFFF), which the UTF-8 codec refuses.
    - [bytes] is a list of byte values ([N], below 256).
    - An exception is a value of [exn]; a computation that may raise returns
      an [outcome]; code that also touches the file system is a function
      from a [world] to an outcome and a new world.
    - Library calls whose result depends on the environment ([json.loads],
      [os.getpid], file-system calls that may fail) consult an [env]
      record, one field per call. *)

From Stdlib Require Import NArith ZArith List String Ascii Lia Bool.
From Stdlib Require DecimalString DecimalN DecimalPos.
From stdpp Require Import gmap.
Import ListNotations.

Local Open Scope N_scope.
Set Warnings "-register-all".

(** ** Strings and bytes *)

Abbreviation str := (list N).
Abbreviation bytes := (list N).

(** An ASCII literal of the source, as a Python [str]. *)
Definition py (s : string) : str :=
  List.map N_of_ascii (list_ascii_of_string s).

(** [str(n)] for a non-negative integer: its decimal digits. *)
Definition str_of_int (n : N) : str :=
  py (DecimalString.NilZero.string_of_uint (N.to_uint n)).

(** *** Character classes *)

(** [str.isspace] on one character, which is also the class [\s] of a
    Unicode pattern in [re]. *)
Definition isspace (c : N) : bool :=
  ((0x09 <=? c) && (c <=? 0x0D)) || ((0x1C <=? c) && (c <=? 0x20))
  || (c =? 0x85) || (c =? 0xA0) || (c =? 0x1680)
  || ((0x2000 <=? c) && (c <=? 0x200A))
  || (c =? 0x2028) || (c =? 0x2029) || (c =? 0x202F) || (c =? 0x205F)
  || (c =? 0x3000).

(** The line boundaries of [str.splitlines]. *)
Definition is_linebreak (c : N) : bool :=
  ((0x0A <=? c) && (c <=? 0x0D)) || ((0x1C <=? c) && (c <=? 0x1E))
  || (c =? 0x85) || (c =? 0x2028) || (c =? 0x2029).

(** The two quote characters excluded by [CASE_RE]. *)
Definition is_quote (c : N) : bool := (c =? 0x22) || (c =? 0x27).

(** The negated class of [CASE_RE]: neither white space nor a quote. *)
Definition token_char (c : N) : bool := negb (isspace c) && negb (is_quote c).

(** *** [str.strip], [str.splitlines] *)

Fixpoint lstrip (s : str) : str :=
  match s with
  | c :: s' => if isspace c then lstrip s' else s
  | [] => []
  end.

Definition rstrip (s : str) : str := rev (lstrip (rev s)).

Definition strip (s : str) : str := rstrip (lstrip s).

(** [cur] is the line being read, most recent character first. A final
    line without terminator is kept unless it is empty; [\r\n] is one
    boundary. *)
Fixpoint splitlines_from (cur : str) (s : str) : list str :=
  match s with
  | [] => match cur with [] => [] | _ => [rev cur] end
  | c :: s' =>
      if is_linebreak c then
        rev cur ::
          match s' with
          | c' :: s'' =>
              if (c =? 0x0D) && (c' =? 0x0A) then splitlines_from [] s''
              else splitlines_from [] s'
          | [] => splitlines_from [] s'
          end
      else splitlines_from (c :: cur) s'
  end.

Definition splitlines (s : str) : list str := splitlines_from [] s.

(** Universal-newline translation of a text file opened for reading with
    [newline=None]: [\r\n] and a lone [\r] are read as [\n]. *)
Fixpoint universal_newlines (s : str) : str :=
  match s with
  | [] => []
  | c :: s' =>
      if c =? 0x0D then
        0x0A ::
          match s' with
          | c' :: s'' =>
              if c' =? 0x0A then universal_newlines s''
              else universal_newlines s'
          | [] => universal_newlines s'
          end
      else c :: universal_newlines s'
  end.

(** *** The UTF-8 codec *)

Definition is_surrogate (c : N) : bool := (0xD800 <=? c) && (c <=? 0xDFFF).

(** [chr(c).encode("utf-8")]; [None] is [UnicodeEncodeError] (a lone
    surrogate). A value above U+10FFFF is no Python character. *)
Definition utf8_encode_char (c : N) : option bytes :=
  if c <? 0x80 then Some [c]
  else if c <? 0x800 then Some [0xC0 + c / 64; 0x80 + c mod 64]
  else if c <? 0x10000 then
    if is_surrogate c then None
    else Some [0xE0 + c / 4096; 0x80 + (c / 64) mod 64; 0x80 + c mod 64]
  else if c <? 0x110000 then
    Some [0xF0 + c / 262144; 0x80 + (c / 4096) mod 64;
          0x80 + (c / 64) mod 64; 0x80 + c mod 64]
  else None.

Fixpoint utf8_encode (s : str) : option bytes :=
  match s with
  | [] => Some []
  | c :: s' =>
      match utf8_encode_char c, utf8_encode s' with
      | Some b, Some bs => Some (b ++ bs)
      | _, _ => None
      end
  end.

Definition is_cont (b : N) : bool := (0x80 <=? b) && (b <=? 0xBF).

(** The byte allowed after the lead byte of a three-byte sequence: no
    overlong form after E0, no surrogate after ED. *)
Definition second_ok3 (b0 b1 : N) : bool :=
  if b0 =? 0xE0 then (0xA0 <=? b1) && (b1 <=? 0xBF)
  else if b0 =? 0xED then (0x80 <=? b1) && (b1 <=? 0x9F)
  else is_cont b1.

(** The byte allowed after the lead byte of a four-byte sequence: no
    overlong form after F0, nothing above U+10FFFF after F4. *)
Definition second_ok4 (b0 b1 : N) : bool :=
  if b0 =? 0xF0 then (0x90 <=? b1) && (b1 <=? 0xBF)
  else if b0 =? 0xF4 then (0x80 <=? b1) && (b1 <=? 0x8F)
  else is_cont b1.

(** [bs.decode("utf-8", errors="ignore")]. An ill-formed sequence is
    dropped: the decoder skips its lead byte, and the continuation bytes
    that followed it are then skipped as invalid lead bytes. *)
Fixpoint utf8_decode_ignore (bs : bytes) : str :=
  match bs with
  | [] => []
  | b0 :: r0 =>
      if b0 <? 0x80 then b0 :: utf8_decode_ignore r0
      else if (0xC2 <=? b0) && (b0 <=? 0xDF) then
        match r0 with
        | b1 :: r1 =>
            if is_cont b1
            then (b0 - 0xC0) * 64 + (b1 - 0x80) :: utf8_decode_ignore r1
            else utf8_decode_ignore r0
        | _ => utf8_decode_ignore r0
        end
      else if (0xE0 <=? b0) && (b0 <=? 0xEF) then
        match r0 with
        | b1 :: b2 :: r2 =>
            if second_ok3 b0 b1 && is_cont b2
            then (b0 - 0xE0) * 4096 + (b1 - 0x80) * 64 + (b2 - 0x80)
                   :: utf8_decode_ignore r2
            else utf8_decode_ignore r0
        | _ => utf8_decode_ignore r0
        end
      else if (0xF0 <=? b0) && (b0 <=? 0xF4) then
        match r0 with
        | b1 :: b2 :: b3 :: r3 =>
            if second_ok4 b0 b1 && is_cont b2 && is_cont b3
            then (b0 - 0xF0) * 262144 + (b1 - 0x80) * 4096
                   + (b2 - 0x80) * 64 + (b3 - 0x80)
                   :: utf8_decode_ignore r3
            else utf8_decode_ignore r0
        | _ => utf8_decode_ignore r0
        end
      else utf8_decode_ignore r0
  end.

(** ** Python values, exceptions and effects *)

(** The values [json.loads] produces: [None], [bool], [int], [float] (kept
    as its lexeme), [str], [list] and [dict] (keys in insertion order). *)
Inductive json : Type :=
| JNull
| JBool (b : bool)
| JInt (n : Z)
| JFloat (lexeme : str)
| JString (s : str)
| JArray (items : list json)
| JObject (members : list (str * json)).

(** The exception classes that occur; all derive from [Exception], and
    [is_OSError] is [isinstance(e, OSError)]. *)
Inductive exn : Type :=
| OSError
| UnicodeEncodeError
| AttributeError
| IndexError
| ValueError.

Definition is_OSError (e : exn) : bool :=
  match e with OSError => true | _ => false end.

Inductive outcome (A : Type) : Type :=
| Return (a : A)
| Raise (e : exn).
Arguments Return {A} a.
Arguments Raise {A} e.

Definition obind {A B} (m : outcome A) (f : A -> outcome B) : outcome B :=
  match m with Return a => f a | Raise e => Raise e end.

(** What sits at a path that is meant to hold the named pipe. *)
Inductive node : Type :=
| Fifo
| RegularFile (content : bytes)
| Directory.

(** The part of the environment the hooks act on. [fifo_stream] is what
    has been written into the pipe; [case_dir] maps the name of a record
    file, as resolved against [CASE_DIR], to its content; [stdout] holds
    the printed lines, each the object handed to [json.dumps]. *)
Record world : Type := World {
  fifo_path : option node;
  fifo_stream : bytes;
  fallback_log : option bytes;
  case_dir : gmap str bytes;
  stdout : list json
}.

Definition set_fifo_path (x : option node) (w : world) : world :=
  World x (fifo_stream w) (fallback_log w) (case_dir w) (stdout w).
Definition set_fifo_stream (x : bytes) (w : world) : world :=
  World (fifo_path w) x (fallback_log w) (case_dir w) (stdout w).
Definition set_fallback_log (x : option bytes) (w : world) : world :=
  World (fifo_path w) (fifo_stream w) x (case_dir w) (stdout w).
Definition set_case_dir (x : gmap str bytes) (w : world) : world :=
  World (fifo_path w) (fifo_stream w) (fallback_log w) x (stdout w).
Definition set_stdout (x : list json) (w : world) : world :=
  World (fifo_path w) (fifo_stream w) (fallback_log w) (case_dir w) x.

(** What the hooks take from their environment without control over it:
    the JSON parser, the process identifier, and for each file-system call
    whether it fails. A call that may fail with any exception has an
    [option exn]; the calls of [os] fail with [OSError] only and have a
    [bool]; a flush that fails after [n] bytes reached the file has
    [Some n]. For the pipe, [pipe_buf] is the PIPE_BUF of the platform and
    [pipe_accepts] the number of bytes the pipe has room for when the
    record is written ([None]: room for all of it). *)
Record env : Type := Env {
  json_loads : str -> outcome json;
  getpid : N;
  fifo_exists_fault : option exn;
  fifo_is_fifo_fault : option exn;
  fifo_unlink_fault : option exn;
  mkfifo_fault : option exn;
  fifo_open_fault : bool;
  fifo_write_fault : bool;
  fifo_close_fault : bool;
  log_open_fault : bool;
  log_flush_fault : option nat;
  case_exists_fault : option exn;
  case_read_fault : option exn;
  case_open_fault : bool;
  case_flush_fault : option nat;
  pipe_buf : nat;
  pipe_accepts : option nat
}.

(** Code with effects: from a world to an outcome and the world it leaves. *)
Definition io (A : Type) : Type := world -> outcome A * world.

Definition ret {A} (a : A) : io A := fun w => (Return a, w).
Definition raise {A} (e : exn) : io A := fun w => (Raise e, w).
Definition bind {A B} (m : io A) (f : A -> io B) : io B :=
  fun w => match m w with
           | (Return a, w') => f a w'
           | (Raise e, w') => (Raise e, w')
           end.
Definition lift {A} (o : outcome A) : io A := fun w => (o, w).
Definition modify (f : world -> world) : io unit := fun w => (Return tt, f w).
Definition gets {A} (f : world -> A) : io A := fun w => (Return (f w), w).

(** [try: m  except Exception as e: h e] *)
Definition try_except {A} (m : io A) (h : exn -> io A) : io A :=
  fun w => match m w with
           | (Return a, w') => (Return a, w')
           | (Raise e, w') => h e w'
           end.

(** [try: m  except OSError as e: h e]; any other exception passes. *)
Definition try_except_OSError {A} (m : io A) (h : exn -> io A) : io A :=
  fun w => match m w with
           | (Return a, w') => (Return a, w')
           | (Raise e, w') => if is_OSError e then h e w' else (Raise e, w')
           end.

(** [try: m  finally: c]; an exception of [c] replaces the outcome of [m]. *)
Definition try_finally {A} (m : io A) (c : io unit) : io A :=
  fun w => match m w with
           | (r, w') => match c w' with
                        | (Return _, w'') => (r, w'')
                        | (Raise e, w'') => (Raise e, w'')
                        end
           end.

Declare Scope io_scope.
Delimit Scope io_scope with io.
Notation "x <- m ;; k" := (bind m (fun x => k))
  (at level 100, m at next level, right associativity) : io_scope.
Notation "m ;;; k" := (bind m (fun _ => k))
  (at level 100, right associativity) : io_scope.
Local Open Scope io_scope.

(** A call that fails when the environment says so. *)
Definition fault (f : option exn) : io unit :=
  match f with Some e => raise e | None => ret tt end.
Definition os_fault (f : bool) : io unit :=
  if f then raise OSError else ret tt.

(** ** The library calls of the hooks *)

(** [v.get(k)]: only a [dict] has the method; a missing key gives [None]. *)
Fixpoint assoc (k : str) (d : list (str * json)) : option json :=
  match d with
  | [] => None
  | (k', v) :: d' => if decide (k = k') then Some v else assoc k d'
  end.

Definition py_get (v : json) (k : str) : outcome json :=
  match v with
  | JObject d => Return (default JNull (assoc k d))
  | _ => Raise AttributeError
  end.

(** [isinstance(v, str)] *)
Definition as_str (v : json) : option str :=
  match v with JString s => Some s | _ => None end.

(** [isinstance(v, str) and v] *)
Definition as_nonempty_str (v : json) : option str :=
  match v with JString (c :: s) => Some (c :: s) | _ => None end.

(** [isinstance(v, dict)] *)
Definition is_dict (v : json) : bool :=
  match v with JObject _ => true | _ => false end.

(** [s.encode("utf-8")] *)
Definition str_encode (s : str) : io bytes :=
  match utf8_encode s with
  | Some bs => ret bs
  | None => raise UnicodeEncodeError
  end.

(** [print(json.dumps(v))] *)
Definition print (v : json) : io unit :=
  modify (fun w => set_stdout (stdout w ++ [v]) w).

(** *** The named pipe at [FIFO_PATH] *)

(** [FIFO_PATH.exists()] *)
Definition fifo_exists (E : env) : io bool :=
  fault (fifo_exists_fault E) ;;;
  gets (fun w => match fifo_path w with Some _ => true | None => false end).

(** [FIFO_PATH.is_fifo()] *)
Definition fifo_is_fifo (E : env) : io bool :=
  fault (fifo_is_fifo_fault E) ;;;
  gets (fun w => match fifo_path w with Some Fifo => true | _ => false end).

(** [FIFO_PATH.unlink(missing_ok=True)]; a directory cannot be unlinked. *)
Definition fifo_unlink (E : env) : io unit :=
  fault (fifo_unlink_fault E) ;;;
  n <- gets fifo_path ;;
  match n with
  | Some Directory => raise OSError
  | _ => modify (set_fifo_path None)
  end.

(** [os.mkfifo(str(FIFO_PATH))]; fails when the path is taken. *)
Definition os_mkfifo (E : env) : io unit :=
  fault (mkfifo_fault E) ;;;
  n <- gets fifo_path ;;
  match n with
  | Some _ => raise OSError
  | None => modify (set_fifo_path (Some Fifo))
  end.

(** [os.open(str(FIFO_PATH), os.O_WRONLY | os.O_NONBLOCK)]. On a pipe no
    reader has open the call fails at once; that, as any other refusal,
    is [fifo_open_fault]. *)
Definition os_open (E : env) : io unit :=
  n <- gets fifo_path ;;
  match n with
  | None | Some Directory => raise OSError
  | Some _ => os_fault (fifo_open_fault E)
  end.

(** What a non-blocking pipe takes of a write of [bs]: a record of at
    most PIPE_BUF bytes goes in whole or not at all ([None], the error
    EAGAIN); of a longer one the pipe takes what it has room for, at
    least one byte, or nothing when it is full. *)
Definition pipe_write (E : env) (bs : bytes) : option bytes :=
  match pipe_accepts E with
  | None => Some bs
  | Some k =>
      if (length bs <=? k)%nat then Some bs
      else if (length bs <=? pipe_buf E)%nat then None
      else match k with
           | O => None
           | S _ => Some (firstn k bs)
           end
  end.

(** [os.write(fd, bs)] on the descriptor [os_open] gave. The call returns
    the number of bytes written, which [write_done] does not look at. *)
Definition os_write (E : env) (bs : bytes) : io unit :=
  os_fault (fifo_write_fault E) ;;;
  n <- gets fifo_path ;;
  match n with
  | Some Fifo =>
      match pipe_write E bs with
      | Some written =>
          modify (fun w => set_fifo_stream (fifo_stream w ++ written) w)
      | None => raise OSError
      end
  | Some (RegularFile c) =>
      modify (set_fifo_path (Some (RegularFile (bs ++ skipn (length bs) c))))
  | _ => ret tt
  end.

(** [os.close(fd)] *)
Definition os_close (E : env) : io unit := os_fault (fifo_close_fault E).

(** *** The fallback log at [FALLBACK_LOG] *)

Definition log_extend (bs : bytes) (w : world) : world :=
  set_fallback_log (Some (default [] (fallback_log w) ++ bs)) w.

(** [with open(FALLBACK_LOG, "a", encoding="utf-8") as w: w.write(text)]:
    opening creates the file, the text is encoded when written, and the
    bytes reach the file when it is closed. The line separator is that of
    POSIX, so that no newline is translated. *)
Definition log_append (E : env) (text : str) : io unit :=
  os_fault (log_open_fault E) ;;;
  modify (log_extend []) ;;;
  bs <- str_encode text ;;
  match log_flush_fault E with
  | Some n => modify (log_extend (firstn n bs)) ;;; raise OSError
  | None => modify (log_extend bs)
  end.

(** *** The record files under [CASE_DIR] *)

(** **** Names, as [pathlib] forms them on a POSIX system *)

(** The pieces between the slashes of a name. *)
Fixpoint split_slash (s : str) : list str :=
  match s with
  | [] => [[]]
  | c :: r =>
      if c =? 0x2F then [] :: split_slash r
      else match split_slash r with
           | p :: ps => (c :: p) :: ps
           | [] => [[c]]
           end
  end.

(** The pieces [pathlib] keeps as the parts of a path: an empty piece (a
    doubled or trailing slash) and the piece [.] are dropped, the piece
    [..] is kept. *)
Definition is_part (p : str) : bool :=
  negb (bool_decide (p = []) || bool_decide (p = [0x2E])).

Definition path_parts (s : str) : list str :=
  List.filter is_part (split_slash s).

(** The root of a POSIX path: none for a relative name, two slashes for a
    name that starts with exactly two, one slash otherwise. *)
Definition path_root (s : str) : str :=
  match s with
  | a :: b :: c :: _ =>
      if negb (a =? 0x2F) then []
      else if negb (b =? 0x2F) then [0x2F]
      else if c =? 0x2F then [0x2F] else [0x2F; 0x2F]
  | [a; b] =>
      if negb (a =? 0x2F) then []
      else if b =? 0x2F then [0x2F; 0x2F] else [0x2F]
  | [a] => if a =? 0x2F then [0x2F] else []
  | [] => []
  end.

Fixpoint join_slash (ps : list str) : str :=
  match ps with
  | [] => []
  | [p] => p
  | p :: ps => p ++ 0x2F :: join_slash ps
  end.

(** [str(PurePosixPath(s))] for a name with at least one part. *)
Definition pure_path (s : str) : str :=
  path_root s ++ join_slash (path_parts s).

(** The file [CASE_DIR / f"{session_id}.case"]: the second operand in the
    form [pathlib] gives it, to be read from [CASE_DIR] unless it has a
    root, in which case [/] discards [CASE_DIR]. Doubled slashes and the
    part [.] do not count, so that [S1] and [./S1] are one file. What
    only the file system can tell (where [..] and links lead, whether a
    rooted name leads back into [CASE_DIR]) is not decided here: two
    different names may still be one file. *)
Definition case_file (session_id : str) : str :=
  pure_path (session_id ++ py ".case").

Definition no_slash (s : str) : bool :=
  forallb (fun c => negb (c =? 0x2F)) s.

Definition put_file (p : str) (bs : bytes) (w : world) : world :=
  set_case_dir (<[p := bs]> (case_dir w)) w.

(** The text of a file read with [encoding="utf-8", errors="ignore"] and
    universal newlines. *)
Definition file_text (bs : bytes) : str :=
  universal_newlines (utf8_decode_ignore bs).

(** [p.exists()] *)
Definition path_exists (E : env) (p : str) : io bool :=
  fault (case_exists_fault E) ;;;
  gets (fun w => match case_dir w !! p with Some _ => true | None => false end).

(** [p.read_text(encoding="utf-8", errors="ignore")] *)
Definition path_read_text (E : env) (p : str) : io str :=
  fault (case_read_fault E) ;;;
  c <- gets (fun w => case_dir w !! p) ;;
  match c with
  | Some bs => ret (file_text bs)
  | None => raise OSError
  end.

(** [p.write_text(text, encoding="utf-8")]: opening truncates or creates
    the file before the text is encoded. *)
Definition path_write_text (E : env) (p : str) (text : str) : io unit :=
  os_fault (case_open_fault E) ;;;
  modify (put_file p []) ;;;
  bs <- str_encode text ;;
  match case_flush_fault E with
  | Some n => modify (put_file p (firstn n bs)) ;;; raise OSError
  | None => modify (put_file p bs)
  end.

(** [sys.exit(main())]: the exit status of the process, 1 after an
    exception nobody caught. *)
Definition sys_exit (main : io Z) (w : world) : Z * world :=
  match main w with
  | (Return n, w') => (n, w')
  | (Raise _, w') => (1%Z, w')
  end.

(** ** [pywen_userprompt.py] *)

Module pywen_userprompt.

Definition PROMPT_KEYS_IN : list str :=
  [py "prompt"; py "user_prompt"; py "userPrompt"].

(** *** [CASE_RE], the pattern [^CASE_ID=(token)\s*$] under [re.IGNORECASE] *)

(** Whether the character [c] matches the literal [p] when case is
    ignored, for the literals of the pattern: the other case of an ASCII
    letter, and the three characters Unicode relates to [s] and [i]
    (U+017F, U+0130, U+0131). *)
Definition ascii_lower (c : N) : N :=
  if (0x41 <=? c) && (c <=? 0x5A) then c + 0x20 else c.

Definition matches_ignorecase (p c : N) : bool :=
  (ascii_lower c =? ascii_lower p)
  || ((ascii_lower p =? 0x73) && (c =? 0x17F))
  || ((ascii_lower p =? 0x69) && ((c =? 0x130) || (c =? 0x131))).

(** A run of literals; the result is the text that follows. *)
Fixpoint match_literal (pat s : str) : option str :=
  match pat, s with
  | [], _ => Some s
  | p :: pat', c :: s' =>
      if matches_ignorecase p c then match_literal pat' s' else None
  | _ :: _, [] => None
  end.

(** The greedy [cls*]: the longest run first, then shorter ones as long
    as what follows ([k], given the run and the rest) does not match. *)
Fixpoint match_star {A} (cls : N -> bool) (s : str)
    (k : str -> str -> option A) : option A :=
  match s with
  | c :: s' =>
      if cls c then
        match match_star cls s' (fun m r => k (c :: m) r) with
        | Some x => Some x
        | None => k [] s
        end
      else k [] s
  | [] => k [] s
  end.

(** The greedy [cls+]. *)
Definition match_plus {A} (cls : N -> bool) (s : str)
    (k : str -> str -> option A) : option A :=
  match s with
  | c :: s' =>
      if cls c then match_star cls s' (fun m r => k (c :: m) r) else None
  | [] => None
  end.

(** [$] without [re.MULTILINE]: the end, or just before a final newline. *)
Definition at_end (s : str) : bool :=
  match s with
  | [] => true
  | [c] => c =? 0x0A
  | _ => false
  end.

(** [CASE_RE.match(s)]: [None], or the match with its [group(1)]. *)
Definition CASE_RE_match (s : str) : option str :=
  match match_literal (py "CASE_ID=") s with
  | Some r =>
      match_plus token_char r (fun tok r1 =>
        match_star isspace r1 (fun _ r2 =>
          if at_end r2 then Some tok else None))
  | None => None
  end.

Definition parse_stdin_json (E : env) (raw : str) : json :=
  match json_loads E raw with
  | Return v => v
  | Raise _ => JObject []
  end.

(** The loops [for k in PROMPT_KEYS_IN] of [extract_prompt]. *)
Fixpoint first_str (keys : list str) (d : json) : outcome (option str) :=
  match keys with
  | [] => Return None
  | k :: keys' =>
      obind (py_get d k) (fun v =>
        match as_str v with
        | Some s => Return (Some s)
        | None => first_str keys' d
        end)
  end.

Definition extract_prompt (data : json) : outcome str :=
  obind (first_str PROMPT_KEYS_IN data) (fun r =>
    match r with
    | Some v => Return v
    | None =>
        obind (py_get data (py "input")) (fun inp =>
          if is_dict inp then
            obind (first_str PROMPT_KEYS_IN inp) (fun r' =>
              match r' with
              | Some v => Return v
              | None => Return []
              end)
          else Return [])
    end).

(** The loop over the four spellings in [extract_session_id]. *)
Fixpoint first_nonempty_str (keys : list str) (d : json)
    : outcome (option str) :=
  match keys with
  | [] => Return None
  | k :: keys' =>
      obind (py_get d k) (fun v =>
        match as_nonempty_str v with
        | Some s => Return (Some s)
        | None => first_nonempty_str keys' d
        end)
  end.

Definition extract_session_id (E : env) (data : json) : outcome str :=
  obind (first_nonempty_str
           [py "session_id"; py "sessionId"; py "sessionID"; py "sid"] data)
    (fun r =>
      match r with
      | Some v => Return v
      | None =>
          obind (py_get data (py "session")) (fun sess =>
            obind (if is_dict sess
                   then obind (py_get sess (py "id"))
                          (fun v => Return (as_nonempty_str v))
                   else Return None)
              (fun r' =>
                match r' with
                | Some v => Return v
                | None => Return (py "pid_" ++ str_of_int (getpid E))
                end))
      end).

Definition write_session_case (E : env) (session_id case_id : str) : io unit :=
  let path := case_file session_id in
  try_except (path_write_text E path case_id) (fun _ => ret tt).

(** The two parts of the f-string of the [reason]. *)
Definition reason_head : str :=
  [24050; 35760; 24405] ++ py " CASE_ID=".
Definition reason_tail : str :=
  [65292; 26412; 26465; 25552; 31034; 19981; 20250; 36827; 20837; 19978;
   19979; 25991; 12290].

Definition main (E : env) (raw : str) : io Z :=
  let data := parse_stdin_json E raw in
  prompt <- lift (extract_prompt data) ;;
  session_id <- lift (extract_session_id E data) ;;
  match CASE_RE_match prompt with
  | None =>
      print (JObject []) ;;;
      ret 0%Z
  | Some case_id =>
      write_session_case E session_id case_id ;;;
      print (JObject [(py "decision", JString (py "block"));
                      (py "reason",
                       JString (reason_head ++ case_id ++ reason_tail))]) ;;;
      ret 0%Z
  end.

End pywen_userprompt.

(** ** [pywen_stop.py] *)

Module pywen_stop.

Definition parse_stdin_json (E : env) (raw : str) : json :=
  match (match raw with [] => Return (JObject []) | _ => json_loads E raw end)
  with
  | Return v => v
  | Raise _ => JObject []
  end.

(** The loop over the four spellings in [extract_session_id]. *)
Fixpoint first_nonempty_str (keys : list str) (d : json)
    : outcome (option str) :=
  match keys with
  | [] => Return None
  | k :: keys' =>
      obind (py_get d k) (fun v =>
        match as_nonempty_str v with
        | Some s => Return (Some s)
        | None => first_nonempty_str keys' d
        end)
  end.

Definition extract_session_id (E : env) (data : json) : outcome str :=
  obind (first_nonempty_str
           [py "session_id"; py "sessionId"; py "sessionID"; py "sid"] data)
    (fun r =>
      match r with
      | Some v => Return v
      | None =>
          obind (py_get data (py "session")) (fun sess =>
            obind (if is_dict sess
                   then obind (py_get sess (py "id"))
                          (fun v => Return (as_nonempty_str v))
                   else Return None)
              (fun r' =>
                match r' with
                | Some v => Return v
                | None => Return (py "pid_" ++ str_of_int (getpid E))
                end))
      end).

Definition UNKNOWN : str := py "UNKNOWN".

(** The [try] block returns ([Some]) or falls through ([None]), as does
    the handler, which is [pass]. *)
Definition read_case_id (E : env) (session_id : str) : io str :=
  let p := case_file session_id in
  r <- try_except
         (e <- path_exists E p ;;
          if e then
            content <- path_read_text E p ;;
            let txt := strip content in
            match txt with
            | [] => ret None
            | _ =>
                match splitlines txt with
                | l :: _ => ret (Some (strip l))
                | [] => raise IndexError
                end
            end
          else ret None)
         (fun _ => ret None) ;;
  match r with
  | Some v => ret v
  | None => ret UNKNOWN
  end.

(** The record [f"{case_id} DONE\n"]. *)
Definition done_line (case_id : str) : str := case_id ++ py " DONE" ++ [0x0A].

(** The body shared by the two [except] handlers of [write_done]. *)
Definition fallback (E : env) (case_id : str) : io str :=
  try_except
    (log_append E (done_line case_id) ;;;
     ret (py "file"))
    (fun _ => ret (py "file")).

(** The first [try] block: make sure a named pipe sits at [FIFO_PATH]. *)
Definition ensure_fifo (E : env) : io unit :=
  e <- fifo_exists E ;;
  f <- (if e then fifo_is_fifo E else ret false) ;;
  if negb e || negb f then
    e' <- fifo_exists E ;;
    (if e' then fifo_unlink E else ret tt) ;;;
    os_mkfifo E
  else ret tt.

(** The second [try] block: one non-blocking write into the pipe. *)
Definition write_fifo (E : env) (case_id : str) : io str :=
  os_open E ;;;
  try_finally
    (bs <- str_encode (done_line case_id) ;;
     os_write E bs)
    (os_close E) ;;;
  ret (py "fifo").

(** The first [try] statement either falls through ([None]) or its
    handler returns ([Some]); the second catches [OSError] only. *)
Definition write_done (E : env) (case_id : str) : io str :=
  r <- try_except
         (ensure_fifo E ;;;
          ret None)
         (fun _ => v <- fallback E case_id ;; ret (Some v)) ;;
  match r with
  | Some v => ret v
  | None =>
      try_except_OSError
        (write_fifo E case_id)
        (fun _ => fallback E case_id)
  end.

(** The text of the [systemMessage]; its first character is U+2705. *)
Definition stop_message (case_id mode : str) : str :=
  [9989] ++ py " [Stop] Recorded DONE for CASE_ID=" ++ case_id
    ++ py " (via " ++ mode ++ py ").".

Definition main (E : env) (raw : str) : io Z :=
  let data := parse_stdin_json E raw in
  session_id <- lift (extract_session_id E data) ;;
  case_id <- read_case_id E session_id ;;
  mode <- write_done E case_id ;;
  print (JObject [(py "systemMessage",
                   JString (stop_message case_id mode))]) ;;;
  ret 0%Z.

End pywen_stop.

(** ** Vocabulary of the statements *)

(** The characters [str.encode] accepts, and the strings it accepts. *)
Definition encodable_char (c : N) : bool :=
  match utf8_encode_char c with Some _ => true | None => false end.

Definition encodable (s : str) : bool := forallb encodable_char s.

(** A case identifier as the registry expects it: no white space, no
    quote character. *)
Definition is_token_text (s : str) : bool := forallb token_char s.

(** The keyword [CASE_ID=] in some letter case. *)
Definition is_keyword (kw : str) : bool :=
  bool_decide (List.map pywen_userprompt.ascii_lower kw = py "case_id=").

(** The registry operations under their names in the specification. *)
Definition put := pywen_userprompt.write_session_case.
Definition get := pywen_stop.read_case_id.
Definition emit := pywen_stop.write_done.

(** The backing file write of [put] succeeds. *)
Definition write_succeeds (E : env) (session_id case_id : str) (w : world)
    : Prop :=
  fst (path_write_text E (case_file session_id) case_id w) = Return tt.

(** The calls [get] makes on the record file do not fail. *)
Definition read_succeeds (E : env) : Prop :=
  case_exists_fault E = None /\ case_read_fault E = None.

(** The record of a session: the text of its file when there is one. *)
Definition record_of (session_id : str) (w : world) : option str :=
  file_text <$> case_dir w !! case_file session_id.

(** Reading the record of a session raises: the existence test fails, or
    the file is there and reading it fails. *)
Definition read_raises (E : env) (session_id : str) (w : world) : Prop :=
  case_exists_fault E <> None
  \/ (record_of session_id w <> None /\ case_read_fault E <> None).

Definition first_line (s : str) : str := hd [] (splitlines s).

(** The world in which [write_done] enters a fallback handler, when it
    does: after the first [try] block raised, or after the second raised
    an [OSError]. *)
Definition fallback_entry (E : env) (case_id : str) (w : world)
    : option world :=
  match pywen_stop.ensure_fifo E w with
  | (Raise _, w1) => Some w1
  | (Return _, w1) =>
      match pywen_stop.write_fifo E case_id w1 with
      | (Raise e, w2) => if is_OSError e then Some w2 else None
      | (Return _, _) => None
      end
  end.

(** The fallback append of a run of [write_done] succeeded, or failed. *)
Definition fallback_append_ok (E : env) (case_id : str) (w : world) : Prop :=
  exists w1, fallback_entry E case_id w = Some w1
             /\ fst (log_append E (pywen_stop.done_line case_id) w1)
                = Return tt.

Definition fallback_append_fails (E : env) (case_id : str) (w : world)
    : Prop :=
  exists w1 e, fallback_entry E case_id w = Some w1
               /\ fst (log_append E (pywen_stop.done_line case_id) w1)
                  = Raise e.

(** The session identifier as the specification words it: the first
    non-empty string among the values under [session_id], [sessionId],
    [sessionID], [sid] and the nested [session.id], or else [pid_<pid>]. *)
Definition lookup_key (k : str) (d : list (str * json)) : json :=
  default JNull (assoc k d).

Definition nested_session_id (d : list (str * json)) : json :=
  match lookup_key (py "session") d with
  | JObject s => lookup_key (py "id") s
  | _ => JNull
  end.

Definition session_candidates (d : list (str * json)) : list json :=
  [lookup_key (py "session_id") d; lookup_key (py "sessionId") d;
   lookup_key (py "sessionID") d; lookup_key (py "sid") d;
   nested_session_id d].

Definition resolved_session (pid : N) (d : list (str * json)) : str :=
  match omap as_nonempty_str (session_candidates d) with
  | v :: _ => v
  | [] => py "pid_" ++ str_of_int pid
  end.

(** The candidate a key of the resolution order names, and the event
    without that key. *)
Definition session_keys : list str :=
  [py "session_id"; py "sessionId"; py "sessionID"; py "sid"; py "session"].

Definition candidate (k : str) (d : list (str * json)) : json :=
  if decide (k = py "session") then nested_session_id d else lookup_key k d.

Definition without_key (k : str) (d : list (str * json))
    : list (str * json) :=
  List.filter (fun kv => negb (bool_decide (fst kv = k))) d.

(** Whether a greedy run of [cls] must stop in front of [r]. *)
Definition stops (cls : N -> bool) (r : str) : bool :=
  match r with [] => true | c :: _ => negb (cls c) end.

(** The outbound events: the one of the declaration path, the empty
    acknowledgment, and the one of the completion path. *)
Definition block_event (case_id : str) : json :=
  JObject [(py "decision", JString (py "block"));
           (py "reason",
            JString (pywen_userprompt.reason_head ++ case_id
                       ++ pywen_userprompt.reason_tail))].

Definition empty_event : json := JObject [].

Definition done_event (case_id mode : str) : json :=
  JObject [(py "systemMessage",
            JString (pywen_stop.stop_message case_id mode))].

(** *** Concrete environments and worlds *)

(** The two events of the end-to-end scenario of session [S1]. *)
Definition xyz_members : list (str * json) :=
  [(py "session_id", JString (py "S1"));
   (py "prompt", JString (py "CASE_ID=XYZ"))].

Definition s1_members : list (str * json) :=
  [(py "session_id", JString (py "S1"))].


(** No call fails; [json.loads] is given as the function [loads]. *)
Definition quiet_env (loads : str -> outcome json) : env :=
  Env loads 4242 None None None None false false false false None
      None None false None 4096%nat None.

(** A parser that knows the empty array and refuses the rest. *)
Definition loads_array_only (raw : str) : outcome json :=
  if decide (raw = py "[]") then Return (JArray []) else Raise ValueError.

(** A parser that answers with one given event. *)
Definition loads_const (v : json) (raw : str) : outcome json := Return v.

(** The members of an event of session [S1] whose prompt is
    [cAsE_iD=XYZ] followed by a blank, a tab and a newline, and of one
    whose prompt is [CASE_ID=abc123]. *)
Definition declaring_members : list (str * json) :=
  [(py "session_id", JString (py "S1"));
   (py "prompt", JString (py "cAsE_iD=" ++ py "XYZ" ++ [32; 9; 10]))].

Definition abc123_members : list (str * json) :=
  [(py "session_id", JString (py "S1"));
   (py "prompt", JString (py "CASE_ID=abc123"))].

(** The members of an event of session [S1] whose prompt declares a
    token that is one lone surrogate. *)
Definition surrogate_members : list (str * json) :=
  [(py "session_id", JString (py "S1"));
   (py "prompt", JString (py "CASE_ID=" ++ [0xD800]))].

Definition E_quiet : env := quiet_env loads_array_only.

(** No call fails and the parser answers with one of the two events. *)
Definition E_declaring : env :=
  quiet_env (loads_const (JObject declaring_members)).
Definition E_abc123 : env :=
  quiet_env (loads_const (JObject abc123_members)).
Definition E_surrogate : env :=
  quiet_env (loads_const (JObject surrogate_members)).

(** The pipe cannot be created, the log can be appended to. *)
Definition E_no_fifo : env :=
  Env loads_array_only 4242 None None None (Some OSError)
      false false false false None None None false None 4096%nat None.

(** The pipe cannot be created and the log cannot be opened. *)
Definition E_no_fifo_no_log : env :=
  Env loads_array_only 4242 None None None (Some OSError)
      false false false true None None None false None 4096%nat None.

Definition empty_world : world := World None [] None ∅ [].

(** A pipe is in place (and a reader will take what is written). *)
Definition fifo_world : world := World (Some Fifo) [] None ∅ [].

(** The record of session [S1] holds the text [UNKNOWN]. *)
Definition unknown_world : world :=
  World None [] None {[ case_file (py "S1") := py "UNKNOWN" ]} [].

(** *** Vocabulary of the further properties *)

(** What [read_case_id] makes of the text of a record: the stripped first
    line of the stripped text, or the sentinel when nothing is left. *)
Definition first_record_line (text : str) : str :=
  match strip text with
  | [] => pywen_stop.UNKNOWN
  | txt => strip (first_line txt)
  end.

(** A text without line boundary. *)
Definition single_line (s : str) : bool :=
  forallb (fun c => negb (is_linebreak c)) s.

(** The values [extract_prompt] consults, in its order: the three keys at
    the top level, then the same three under [input] when that is a
    [dict]. *)
Definition nested_prompt (k : str) (d : list (str * json)) : json :=
  match lookup_key (py "input") d with
  | JObject i => lookup_key k i
  | _ => JNull
  end.

Definition prompt_candidates (d : list (str * json)) : list json :=
  [lookup_key (py "prompt") d; lookup_key (py "user_prompt") d;
   lookup_key (py "userPrompt") d; nested_prompt (py "prompt") d;
   nested_prompt (py "user_prompt") d; nested_prompt (py "userPrompt") d].

Definition resolved_prompt (d : list (str * json)) : str :=
  match omap as_str (prompt_candidates d) with
  | v :: _ => v
  | [] => []
  end.

(** A text the literal [CASE_ID=] of the pattern matches, character by
    character, when case is ignored. *)
Definition keyword_form (kw : str) : Prop :=
  Forall2 (fun p c => pywen_userprompt.matches_ignorecase p c = true)
    (py "CASE_ID=") kw.

(** Environments in which one call of the emitter fails: closing the
    pipe, or opening it (no reader); and one whose parser refuses every
    input. *)
Definition E_close_fault : env :=
  Env loads_array_only 4242 None None None None
      false false true false None None None false None 4096%nat None.

Definition E_no_reader : env :=
  Env loads_array_only 4242 None None None None
      true false false false None None None false None 4096%nat None.

Definition E_unparseable : env := quiet_env (fun _ => Raise ValueError).

(** A platform whose PIPE_BUF is 512, with a pipe that has room for 100
    bytes, and a case identifier of 600 letters. *)
Definition E_narrow_pipe : env :=
  Env loads_array_only 4242 None None None None
      false false false false None None None false None 512%nat
      (Some 100%nat).

Definition long_case_id : str := repeat 0x41 600.

(** The environment of another process: no call fails, the process id
    differs from that of [E_quiet]. *)
Definition E_other_pid : env :=
  Env loads_array_only 4243 None None None None
      false false false false None None None false None 4096%nat None.

(** ** Proof automation *)

(** Name the quotient and remainder of [c] by 64, keeping only the
    equations that relate them. *)
Ltac name_div64 c q r :=
  let Hq := fresh "Hq" in
  let Hr := fresh "Hr" in
  pose proof (N.div_mod c 64 ltac:(discriminate)) as Hq;
  pose proof (N.mod_lt c 64 ltac:(discriminate)) as Hr;
  generalize dependent (c mod 64); intros r Hq Hr;
  generalize dependent (c / 64); intros q Hq.

(** Decide the comparisons of the goal by arithmetic, splitting on those
    the hypotheses leave open. *)
Ltac split_tests :=
  repeat match goal with
    | |- context [?a <? ?b] =>
        first [ rewrite (proj2 (N.ltb_lt a b)) by lia
              | rewrite (proj2 (N.ltb_ge a b)) by lia
              | destruct (N.ltb_spec a b) ]
    | |- context [?a <=? ?b] =>
        first [ rewrite (proj2 (N.leb_le a b)) by lia
              | rewrite (proj2 (N.leb_gt a b)) by lia
              | destruct (N.leb_spec a b) ]
    | |- context [?a =? ?b] =>
        first [ rewrite (proj2 (N.eqb_neq a b)) by lia
              | rewrite (proj2 (N.eqb_eq a b)) by lia
              | destruct (N.eqb_spec a b) ]
    end; cbn [andb orb negb].

(** * Properties *)

(** ** Strings *)

Lemma is_linebreak_isspace c : is_linebreak c = true -> isspace c = true.
Proof.
  unfold is_linebreak, isspace. intros H.
  repeat (apply orb_true_iff in H; destruct H as [H | H]);
    rewrite ?andb_true_iff, ?N.leb_le, ?N.eqb_eq in H;
    repeat (apply orb_true_iff;
            first [ right; rewrite ?andb_true_iff, ?N.leb_le, ?N.eqb_eq; lia
                  | left ]);
    rewrite ?andb_true_iff, ?N.leb_le, ?N.eqb_eq; lia.
Qed.

Lemma token_char_not_space c : token_char c = true -> isspace c = false.
Proof.
  unfold token_char. intros H. apply andb_true_iff in H as [H _].
  now apply negb_true_iff in H.
Qed.

Lemma lstrip_no_space c s : isspace c = false -> lstrip (c :: s) = c :: s.
Proof. intros H. simpl. now rewrite H. Qed.

Lemma lstrip_all_space s : forallb isspace s = true -> lstrip s = [].
Proof.
  induction s as [|c s IH]; simpl; [reflexivity|].
  intros H. apply andb_true_iff in H as [Hc Hs]. rewrite Hc. auto.
Qed.

Lemma lstrip_token s : is_token_text s = true -> lstrip s = s.
Proof.
  destruct s as [|c s]; [reflexivity|]. unfold is_token_text. simpl.
  intros H. apply andb_true_iff in H as [Hc _].
  apply lstrip_no_space. now apply token_char_not_space.
Qed.

Lemma is_token_text_rev s : is_token_text s = true -> is_token_text (rev s) = true.
Proof.
  unfold is_token_text. rewrite !forallb_forall. intros H c Hc.
  apply H. now apply in_rev.
Qed.

Lemma strip_token s : is_token_text s = true -> strip s = s.
Proof.
  intros H. unfold strip, rstrip. rewrite (lstrip_token s H).
  rewrite (lstrip_token (rev s)) by now apply is_token_text_rev.
  apply rev_involutive.
Qed.

Lemma splitlines_from_no_break cur s :
  forallb (fun c => negb (is_linebreak c)) s = true ->
  splitlines_from cur s =
    match rev cur ++ s with [] => [] | l => [l] end.
Proof.
  revert cur. induction s as [|c s IH]; intros cur H; simpl.
  - rewrite app_nil_r. destruct cur as [|a cur]; simpl; [reflexivity|].
    destruct (rev cur ++ [a]) eqn:E; [|reflexivity].
    now destruct (rev cur).
  - simpl in H. apply andb_true_iff in H as [Hc Hs].
    apply negb_true_iff in Hc. rewrite Hc, (IH _ Hs). simpl.
    now rewrite <- app_assoc.
Qed.

Lemma token_no_break s :
  is_token_text s = true -> forallb (fun c => negb (is_linebreak c)) s = true.
Proof.
  unfold is_token_text. rewrite !forallb_forall. intros H c Hc.
  specialize (H c Hc). apply token_char_not_space in H.
  destruct (is_linebreak c) eqn:E; [|reflexivity].
  apply is_linebreak_isspace in E. congruence.
Qed.

Lemma splitlines_token s :
  is_token_text s = true -> s <> [] -> splitlines s = [s].
Proof.
  intros H Hne. unfold splitlines.
  rewrite splitlines_from_no_break by now apply token_no_break.
  simpl. now destruct s.
Qed.

Lemma universal_newlines_token s :
  is_token_text s = true -> universal_newlines s = s.
Proof.
  unfold is_token_text. induction s as [|c s IH]; simpl; [reflexivity|].
  intros H. apply andb_true_iff in H as [Hc Hs].
  apply token_char_not_space in Hc.
  destruct (N.eqb_spec c 13) as [->|_]; [discriminate Hc|].
  now rewrite IH.
Qed.

(** ** The UTF-8 codec *)

Lemma div_4096 c : c / 4096 = c / 64 / 64.
Proof. rewrite N.Div0.div_div. reflexivity. Qed.

Lemma div_262144 c : c / 262144 = c / 64 / 64 / 64.
Proof. rewrite !N.Div0.div_div. reflexivity. Qed.

Lemma utf8_decode_encode_char c bs rest :
  utf8_encode_char c = Some bs ->
  utf8_decode_ignore (bs ++ rest) = c :: utf8_decode_ignore rest.
Proof.
  unfold utf8_encode_char, is_surrogate.
  rewrite div_262144, div_4096.
  destruct (N.ltb_spec c 0x80) as [H1|H1].
  { intros [= <-]. cbn [app utf8_decode_ignore].
    destruct (N.ltb_spec c 0x80); [reflexivity | lia]. }
  destruct (N.ltb_spec c 0x800) as [H2|H2].
  { intros [= <-]. cbn [app utf8_decode_ignore]. unfold is_cont.
    name_div64 c q1 r0. split_tests. f_equal. lia. }
  destruct (N.ltb_spec c 0x10000) as [H3|H3].
  { destruct (N.leb_spec 0xD800 c) as [H4|H4];
      destruct (N.leb_spec c 0xDFFF) as [H5|H5]; cbn [andb];
      try discriminate; try lia; intros [= <-];
      cbn [app utf8_decode_ignore]; unfold second_ok3, is_cont;
      name_div64 c q1 r0; name_div64 q1 q2 r1;
      split_tests; f_equal; lia. }
  destruct (N.ltb_spec c 0x110000) as [H4|H4]; [|discriminate].
  intros [= <-]. cbn [app utf8_decode_ignore]. unfold second_ok4, is_cont.
  name_div64 c q1 r0; name_div64 q1 q2 r1; name_div64 q2 q3 r2.
  split_tests; f_equal; lia.
Qed.


Lemma utf8_decode_encode s bs :
  utf8_encode s = Some bs -> utf8_decode_ignore bs = s.
Proof.
  revert bs. induction s as [|c s IH]; intros bs; simpl.
  - now intros [= <-].
  - destruct (utf8_encode_char c) as [b|] eqn:Hc; [|discriminate].
    destruct (utf8_encode s) as [bs'|]; [|discriminate].
    intros [= <-]. rewrite (utf8_decode_encode_char _ _ _ Hc).
    now rewrite (IH bs').
Qed.

Lemma utf8_encode_encodable s :
  encodable s = true <-> exists bs, utf8_encode s = Some bs.
Proof.
  unfold encodable, encodable_char. induction s as [|c s IH]; simpl.
  - split; eauto.
  - destruct (utf8_encode_char c) as [b|]; simpl.
    + rewrite IH. destruct (utf8_encode s) as [bs|].
      * split; eauto.
      * split; [intros [? [=]] | intros [? [=]]].
    + split; [discriminate | intros [? [=]]].
Qed.

Lemma encodable_app s t :
  encodable (s ++ t) = encodable s && encodable t.
Proof. apply forallb_app. Qed.

Lemma encodable_char_range c :
  c < 0x110000 -> is_surrogate c = false -> encodable_char c = true.
Proof.
  unfold encodable_char, utf8_encode_char. intros H ->.
  repeat match goal with |- context [?a <? ?b] =>
    destruct (N.ltb_spec a b); try reflexivity end. lia.
Qed.

Lemma utf8_decode_ignore_encodable bs :
  encodable (utf8_decode_ignore bs) = true.
Proof.
  remember (length bs) as n eqn:Hn.
  revert bs Hn. induction n as [n IH] using lt_wf_ind. intros bs Hn.
  assert (Hrec : forall r, (length r < length bs)%nat ->
                           encodable (utf8_decode_ignore r) = true).
  { intros r Hr. apply (IH (length r)); [lia | reflexivity]. }
  clear IH Hn.
  destruct bs as [|b0 r0]; [reflexivity|].
  cbn [utf8_decode_ignore].
  assert (H0 : encodable (utf8_decode_ignore r0) = true)
    by (apply Hrec; simpl; lia).
  destruct (N.ltb_spec b0 0x80) as [Hb|Hb].
  { simpl. rewrite H0, encodable_char_range; [reflexivity | lia |].
    unfold is_surrogate. split_tests; reflexivity. }
  destruct ((0xC2 <=? b0) && (b0 <=? 0xDF)) eqn:T2.
  { destruct r0 as [|b1 r1]; [exact H0|].
    destruct (is_cont b1) eqn:C1; [|exact H0].
    simpl. rewrite Hrec by (simpl; lia). rewrite andb_true_r.
    unfold is_cont in C1.
    rewrite !andb_true_iff, !N.leb_le in T2, C1.
    apply encodable_char_range; [lia|].
    unfold is_surrogate. split_tests; reflexivity. }
  destruct ((0xE0 <=? b0) && (b0 <=? 0xEF)) eqn:T3.
  { destruct r0 as [|b1 [|b2 r2]]; try exact H0.
    destruct (second_ok3 b0 b1 && is_cont b2) eqn:C; [|exact H0].
    simpl. rewrite Hrec by (simpl; lia). rewrite andb_true_r.
    apply andb_true_iff in C as [C1 C2].
    unfold second_ok3, is_cont in C1, C2.
    rewrite !andb_true_iff, !N.leb_le in T3, C2.
    destruct (N.eqb_spec b0 0xE0); [|destruct (N.eqb_spec b0 0xED)];
      rewrite !andb_true_iff, !N.leb_le in C1;
      (apply encodable_char_range; [lia|]);
      unfold is_surrogate; split_tests; reflexivity. }
  destruct ((0xF0 <=? b0) && (b0 <=? 0xF4)) eqn:T4; [|exact H0].
  destruct r0 as [|b1 [|b2 [|b3 r3]]]; try exact H0.
  destruct (second_ok4 b0 b1 && is_cont b2 && is_cont b3) eqn:C; [|exact H0].
  simpl. rewrite Hrec by (simpl; lia). rewrite andb_true_r.
  apply andb_true_iff in C as [C C3]. apply andb_true_iff in C as [C1 C2].
  unfold second_ok4, is_cont in C1, C2, C3.
  rewrite !andb_true_iff, !N.leb_le in T4, C2, C3.
  destruct (N.eqb_spec b0 0xF0); [|destruct (N.eqb_spec b0 0xF4)];
    rewrite !andb_true_iff, !N.leb_le in C1;
    (apply encodable_char_range; [lia|]);
    unfold is_surrogate; split_tests; reflexivity.
Qed.


(** ** The session-case registry *)

Section Registry.

Import pywen_stop pywen_userprompt.

(** [read_case_id] as one expression: it never raises and leaves the
    world as it was. *)
Lemma read_case_id_eval E session_id w :
  read_case_id E session_id w =
    (Return
       match case_exists_fault E, case_dir w !! case_file session_id,
             case_read_fault E with
       | None, Some bs, None =>
           match strip (file_text bs) with
           | [] => UNKNOWN
           | txt => match splitlines txt with
                    | l :: _ => strip l
                    | [] => UNKNOWN
                    end
           end
       | _, _, _ => UNKNOWN
       end, w).
Proof.
  unfold read_case_id, path_exists, path_read_text, bind, try_except, fault,
    gets, ret, raise.
  destruct (case_exists_fault E), (case_read_fault E); cbv beta iota;
    destruct (case_dir w !! case_file session_id) as [bs|] eqn:Hl;
    cbv beta iota; rewrite ?Hl; try reflexivity.
  cbv beta iota.
  destruct (strip (file_text bs)) as [|c txt]; [reflexivity|].
  destruct (splitlines (c :: txt)); reflexivity.
Qed.

(** What a successful [write_text] leaves behind. *)
Lemma path_write_text_success E p text w :
  fst (path_write_text E p text w) = Return tt ->
  exists bs, utf8_encode text = Some bs /\
             snd (path_write_text E p text w)
               = put_file p bs (put_file p [] w).
Proof.
  unfold path_write_text, bind, os_fault, str_encode, modify, ret, raise.
  destruct (case_open_fault E); [discriminate|]. cbv beta iota.
  destruct (utf8_encode text) as [bs|]; [|discriminate]. cbv beta iota.
  destruct (case_flush_fault E); [discriminate|].
  intros _. eauto.
Qed.

Lemma write_session_case_success E session_id case_id w :
  write_succeeds E session_id case_id w ->
  exists bs, utf8_encode case_id = Some bs /\
             case_dir (snd (write_session_case E session_id case_id w))
               !! case_file session_id = Some bs.
Proof.
  unfold write_succeeds, write_session_case, try_except. intros H.
  destruct (path_write_text_success _ _ _ _ H) as (bs & Hbs & Hw).
  exists bs. split; [exact Hbs|].
  destruct (path_write_text E (case_file session_id) case_id w) as [[[]|e] w1];
    simpl in *; [|discriminate].
  subst w1. simpl. apply lookup_insert_eq.
Qed.

Lemma file_text_token c bs :
  is_token_text c = true -> utf8_encode c = Some bs -> file_text bs = c.
Proof.
  intros Ht Hbs. unfold file_text. rewrite (utf8_decode_encode _ _ Hbs).
  now apply universal_newlines_token.
Qed.

End Registry.


Lemma splitlines_from_nonempty cur s :
  cur ++ s <> [] -> splitlines_from cur s <> [].
Proof.
  revert cur. induction s as [|c s IH]; intros cur H; simpl.
  - rewrite app_nil_r in H. destruct cur; [congruence | discriminate].
  - destruct (is_linebreak c); [discriminate|].
    apply IH. now destruct cur.
Qed.

Lemma splitlines_nonempty s : s <> [] -> splitlines s <> [].
Proof. intros H. now apply splitlines_from_nonempty. Qed.

Section RegistryClaims.

Import pywen_stop pywen_userprompt.

(** C2, as stated, fails at the empty case identifier: it holds no white
    space and no quote, the write and the read succeed, and [get] answers
    [UNKNOWN] instead of the empty text that was [put]. *)
Lemma put_get_empty_counterexample :
  ~ (is_token_text [] = true ->
     write_succeeds E_quiet (py "S1") [] empty_world ->
     read_succeeds E_quiet ->
     fst (get E_quiet (py "S1") (snd (put E_quiet (py "S1") [] empty_world)))
       = Return []).
Proof.
  intros H.
  specialize (H eq_refl eq_refl (conj eq_refl eq_refl)).
  vm_compute in H. discriminate H.
Qed.

(** C2 (amended): for every session_id and every non-empty case_id that
    holds no white space and no quote character, [put] followed by [get]
    for the same session returns case_id exactly, provided the backing
    file write and read succeed. *)
Theorem put_get_roundtrip E E' session_id case_id w :
  case_id <> [] ->
  is_token_text case_id = true ->
  write_succeeds E session_id case_id w ->
  read_succeeds E' ->
  fst (get E' session_id (snd (put E session_id case_id w)))
    = Return case_id.
Proof.
  intros Hne Htok Hw [Hex Hrd]. unfold get, put.
  destruct (write_session_case_success _ _ _ _ Hw) as (bs & Hbs & Hfile).
  rewrite read_case_id_eval, Hex, Hrd, Hfile. cbn [fst].
  rewrite (file_text_token _ _ Htok Hbs), (strip_token _ Htok).
  destruct case_id as [|c s]; [congruence|].
  rewrite (splitlines_token _ Htok) by discriminate.
  now rewrite (strip_token _ Htok).
Qed.

Lemma put_get_roundtrip_witness :
  fst (get E_quiet (py "S1")
         (snd (put E_quiet (py "S1") (py "XYZ") empty_world)))
    = Return (py "XYZ").
Proof.
  apply put_get_roundtrip;
    [discriminate | reflexivity | reflexivity | split; reflexivity].
Defined.

(** C7, as stated, fails for a record that holds the text [UNKNOWN]:
    [get] returns the sentinel although the file exists, is read without
    error and is not empty after trimming. *)
Lemma get_sentinel_counterexample :
  ~ (fst (get E_quiet (py "S1") unknown_world) = Return UNKNOWN <->
     (record_of (py "S1") unknown_world = None
      \/ read_raises E_quiet (py "S1") unknown_world
      \/ exists t, record_of (py "S1") unknown_world = Some t
                   /\ strip t = [])).
Proof.
  intros [H _]. specialize (H eq_refl).
  destruct H as [H | [[H | [_ H]] | (t & Ht & Hs)]].
  - vm_compute in H. discriminate H.
  - now apply H.
  - now apply H.
  - vm_compute in Ht. injection Ht as <-. vm_compute in Hs. discriminate Hs.
Qed.

(** C7 (amended): for every session_id, [get] never raises and changes
    nothing; it returns the sentinel [UNKNOWN] whenever the record file
    does not exist, or reading it raises, or its content is empty after
    trimming; in every other case it returns the first line of the
    trimmed content with surrounding white space stripped. So the
    sentinel is returned exactly when one of the three conditions holds
    or that first line is itself the text [UNKNOWN]. *)
Theorem get_sentinel E session_id w :
  exists v,
    get E session_id w = (Return v, w)
    /\ (record_of session_id w = None -> v = UNKNOWN)
    /\ (read_raises E session_id w -> v = UNKNOWN)
    /\ (forall t, record_of session_id w = Some t ->
          (strip t = [] -> v = UNKNOWN)
          /\ (~ read_raises E session_id w -> strip t <> [] ->
              v = strip (first_line (strip t))))
    /\ (v = UNKNOWN <->
        record_of session_id w = None
        \/ read_raises E session_id w
        \/ exists t, record_of session_id w = Some t
                     /\ (strip t = []
                         \/ strip (first_line (strip t)) = UNKNOWN)).
Proof.
  unfold get, read_raises, record_of, first_line.
  rewrite read_case_id_eval. eexists. split; [reflexivity|].
  destruct (case_exists_fault E) as [e|] eqn:Hex.
  { split; [auto | split; [auto | split]].
    - intros u _. split; [auto|]. intros Hn. exfalso. apply Hn. now left.
    - split; [|reflexivity]. intros _. right. left. now left. }
  destruct (case_dir w !! case_file session_id) as [bs|] eqn:Hl; simpl.
  2:{ split; [auto | split; [auto | split]].
      - discriminate.
      - split; [|reflexivity]. now left. }
  destruct (case_read_fault E) as [e|] eqn:Hrd.
  { split; [auto | split; [auto | split]].
    - intros u _. split; [auto|]. intros Hn. exfalso. apply Hn.
      right. split; discriminate.
    - split; [|reflexivity]. intros _. right. left. right.
      split; discriminate. }
  assert (Hno : ~ (@None exn <> None \/ Some (file_text bs) <> None
                                    /\ @None exn <> None)).
  { intros [H | [_ H]]; now apply H. }
  destruct (strip (file_text bs)) as [|c txt] eqn:Hs.
  { split; [auto | split; [auto | split]].
    - intros u [= <-]. split; [auto|]. intros _ Hn. now rewrite Hs in Hn.
    - split; [|reflexivity]. intros _. right. right.
      exists (file_text bs). auto. }
  destruct (splitlines (c :: txt)) as [|l ls] eqn:Hsp.
  { exfalso. revert Hsp. now apply splitlines_nonempty. }
  split; [discriminate | split; [|split]].
  - intros Hn. now apply Hno in Hn.
  - intros u [= <-]. split.
    + rewrite Hs. discriminate.
    + now rewrite Hs, Hsp.
  - split.
    + intros H. right. right. exists (file_text bs). rewrite Hs, Hsp. auto.
    + intros [H | [H | (u & [= <-] & [H | H])]]; try discriminate.
      * now apply Hno in H.
      * now rewrite Hs in H.
      * now rewrite Hs, Hsp in H.
Qed.

End RegistryClaims.


(** ** Session-identifier resolution *)

(** The two scripts carry the same function. *)
Lemma extract_session_id_same E data :
  pywen_userprompt.extract_session_id E data
  = pywen_stop.extract_session_id E data.
Proof. reflexivity. Qed.

Lemma extract_session_id_resolved E d :
  pywen_stop.extract_session_id E (JObject d)
  = Return (resolved_session (getpid E) d).
Proof.
  unfold pywen_stop.extract_session_id, resolved_session, session_candidates,
    nested_session_id, lookup_key.
  cbn [pywen_stop.first_nonempty_str py_get obind omap list_omap].
  destruct (as_nonempty_str (default JNull (assoc (py "session_id") d)));
    [reflexivity|].
  destruct (as_nonempty_str (default JNull (assoc (py "sessionId") d)));
    [reflexivity|].
  destruct (as_nonempty_str (default JNull (assoc (py "sessionID") d)));
    [reflexivity|].
  destruct (as_nonempty_str (default JNull (assoc (py "sid") d)));
    [reflexivity|].
  destruct (default JNull (assoc (py "session") d)) as [| | | | | |s];
    try reflexivity.
  cbn [is_dict py_get obind].
  destruct (as_nonempty_str (default JNull (assoc (py "id") s)));
    reflexivity.
Qed.

Lemma resolved_session_nonempty pid d : resolved_session pid d <> [].
Proof.
  unfold resolved_session.
  destruct (omap as_nonempty_str (session_candidates d)) as [|v l] eqn:H;
    [discriminate|].
  assert (Hin : v ∈ omap as_nonempty_str (session_candidates d))
    by (rewrite H; left).
  apply list_elem_of_omap in Hin as (x & _ & Hx).
  destruct x as [| | | | [|c s] | |]; try discriminate.
  now injection Hx as <-.
Qed.

(** The first usable candidate is the one resolved. *)
Lemma first_usable (l : list json) i v :
  l !! i = Some (JString v) -> v <> [] ->
  (forall j x, (j < i)%nat -> l !! j = Some x -> as_nonempty_str x = None) ->
  head (omap as_nonempty_str l) = Some v.
Proof.
  revert i. induction l as [|x l IH]; intros i Hi Hv Hbefore.
  - now rewrite lookup_nil in Hi.
  - destruct i as [|i]; simpl in Hi.
    + injection Hi as ->. destruct v; [congruence | reflexivity].
    + cbn [omap list_omap]. rewrite (Hbefore 0%nat x ltac:(lia) eq_refl).
      apply (IH i Hi Hv). intros j y Hj Hy. apply (Hbefore (S j) y); [lia | exact Hy].
Qed.

Lemma none_usable (l : list json) :
  (forall x, x ∈ l -> as_nonempty_str x = None) ->
  omap as_nonempty_str l = [].
Proof.
  induction l as [|x l IH]; intros H; [reflexivity|].
  cbn [omap list_omap]. rewrite (H x) by left.
  apply IH. intros y Hy. apply H. now right.
Qed.

(** C8: for every inbound event object, resolution takes the first
    non-empty string among the values under session_id, sessionId,
    sessionID, sid (in that order) and then the nested session.id; when
    none is a non-empty string it returns pid_<pid>; the result is always
    a non-empty string. Both scripts resolve alike. *)
Theorem session_id_resolution E d :
  pywen_stop.extract_session_id E (JObject d)
    = Return (resolved_session (getpid E) d)
  /\ pywen_userprompt.extract_session_id E (JObject d)
    = Return (resolved_session (getpid E) d)
  /\ (forall i v,
        session_candidates d !! i = Some (JString v) -> v <> [] ->
        (forall j x, (j < i)%nat -> session_candidates d !! j = Some x ->
                     as_nonempty_str x = None) ->
        resolved_session (getpid E) d = v)
  /\ ((forall x, x ∈ session_candidates d -> as_nonempty_str x = None) ->
      resolved_session (getpid E) d = py "pid_" ++ str_of_int (getpid E))
  /\ resolved_session (getpid E) d <> [].
Proof.
  split; [apply extract_session_id_resolved|].
  split; [rewrite extract_session_id_same; apply extract_session_id_resolved|].
  split; [|split].
  - intros i v Hi Hv Hbefore. unfold resolved_session.
    pose proof (first_usable _ _ _ Hi Hv Hbefore) as H.
    destruct (omap as_nonempty_str (session_candidates d)); [discriminate|].
    now injection H.
  - intros H. unfold resolved_session. now rewrite (none_usable _ H).
  - apply resolved_session_nonempty.
Qed.


Lemma assoc_without_key k k' d :
  assoc k' (without_key k d) = if decide (k' = k) then None else assoc k' d.
Proof.
  induction d as [|[a v] d IH]; simpl.
  - now destruct (decide (k' = k)).
  - destruct (bool_decide_reflect (a = k)) as [->|Hne]; simpl.
    + rewrite IH. destruct (decide (k' = k)) as [->|Hk]; [reflexivity|].
      now destruct (decide (k' = k)).
    + rewrite IH. destruct (decide (k' = a)) as [->|Ha].
      * now destruct (decide (a = k)).
      * reflexivity.
Qed.

Lemma lookup_without_key k k' d :
  lookup_key k' (without_key k d)
  = if decide (k' = k) then JNull else lookup_key k' d.
Proof.
  unfold lookup_key. rewrite assoc_without_key.
  now destruct (decide (k' = k)).
Qed.

Lemma extract_session_id_resolved_prompt E d :
  pywen_userprompt.extract_session_id E (JObject d)
  = Return (resolved_session (getpid E) d).
Proof. exact (extract_session_id_resolved E d). Qed.

(** Dropping a key whose candidate is unusable does not change what is
    resolved. *)
Lemma resolved_without_key pid k d :
  In k session_keys ->
  as_nonempty_str (candidate k d) = None ->
  resolved_session pid (without_key k d) = resolved_session pid d.
Proof.
  unfold session_keys, candidate. intros Hin.
  repeat (destruct Hin as [<- | Hin]); try contradiction;
    unfold resolved_session, session_candidates, nested_session_id;
    rewrite !lookup_without_key;
    repeat match goal with
      | |- context [decide (?a = ?b)] =>
          let H := fresh in
          destruct (decide (a = b)) as [H|H];
          [try discriminate H | first [ now exfalso; apply H | idtac ]]
      end;
    cbn [omap list_omap as_nonempty_str]; intros ->; reflexivity.
Qed.

(** C10: resolution skips a candidate whose value is not a string or is
    the empty string (an integer under session_id, a value under session
    that is no dict or has no usable id): the result is the one for the
    event without that key, it is never a failure, and when no candidate
    is usable it is the identifier made from the process id. *)
Theorem session_id_skips_unusable E d :
  (forall k, In k session_keys ->
     as_nonempty_str (candidate k d) = None ->
     pywen_stop.extract_session_id E (JObject d)
       = pywen_stop.extract_session_id E (JObject (without_key k d))
     /\ pywen_userprompt.extract_session_id E (JObject d)
        = pywen_userprompt.extract_session_id E (JObject (without_key k d)))
  /\ ((forall k, In k session_keys ->
         as_nonempty_str (candidate k d) = None) ->
      pywen_stop.extract_session_id E (JObject d)
        = Return (py "pid_" ++ str_of_int (getpid E))
      /\ pywen_userprompt.extract_session_id E (JObject d)
         = Return (py "pid_" ++ str_of_int (getpid E)))
  /\ (exists v, pywen_stop.extract_session_id E (JObject d) = Return v
                /\ pywen_userprompt.extract_session_id E (JObject d)
                   = Return v).
Proof.
  split; [|split].
  - intros k Hin Hk. rewrite ?extract_session_id_resolved_prompt,
      ?extract_session_id_resolved, (resolved_without_key _ _ _ Hin Hk).
    now split.
  - intros H.
    rewrite ?extract_session_id_resolved_prompt, ?extract_session_id_resolved.
    enough (resolved_session (getpid E) d
            = py "pid_" ++ str_of_int (getpid E)) as -> by now split.
    unfold resolved_session. rewrite none_usable; [reflexivity|].
    intros x Hx. unfold session_candidates in Hx.
    repeat (apply elem_of_cons in Hx as [-> | Hx]);
      [ apply (H (py "session_id")) | apply (H (py "sessionId"))
      | apply (H (py "sessionID")) | apply (H (py "sid"))
      | apply (H (py "session")) | now apply elem_of_nil in Hx ];
      unfold session_keys; simpl; auto 10.
  - eexists.
    rewrite ?extract_session_id_resolved_prompt, ?extract_session_id_resolved.
    now split.
Qed.

(** An integer under [session_id] is passed over for [sid]; a string
    under [session] is no dict, and the process id is used. *)
Example skip_integer_session_id :
  pywen_stop.extract_session_id E_quiet
    (JObject [(py "session_id", JInt 7); (py "sid", JString (py "abc"))])
  = Return (py "abc").
Proof. reflexivity. Qed.

Example skip_non_dict_session :
  pywen_stop.extract_session_id E_quiet
    (JObject [(py "session_id", JString []); (py "session", JString (py "abc"))])
  = Return (py "pid_4242").
Proof. reflexivity. Qed.


(** ** The case-declaration pattern *)

Section Declaration.

Import pywen_userprompt.

Lemma match_literal_keyword kw rest :
  is_keyword kw = true ->
  match_literal (py "CASE_ID=") (kw ++ rest) = Some rest.
Proof.
  unfold is_keyword. intros H. apply bool_decide_eq_true in H.
  do 8 (destruct kw as [|? kw]; [discriminate H|]).
  destruct kw; [|discriminate H].
  injection H as H1 H2 H3 H4 H5 H6 H7 H8.
  cbn [py List.map list_ascii_of_string app match_literal].
  unfold matches_ignorecase.
  rewrite H1, H2, H3, H4, H5, H6, H7, H8. reflexivity.
Qed.

(** A greedy run stops where the class stops, and nothing is given back
    when what follows matches there. *)
Lemma match_star_run {A} cls m r (k : str -> str -> option A) x :
  forallb cls m = true -> stops cls r = true ->
  k m r = Some x ->
  match_star cls (m ++ r) k = Some x.
Proof.
  revert k. induction m as [|c m IH]; intros k Hm Hr Hk.
  - destruct r as [|c r]; simpl; [exact Hk|].
    simpl in Hr. apply negb_true_iff in Hr. now rewrite Hr.
  - simpl in Hm. apply andb_true_iff in Hm as [Hc Hm].
    simpl. rewrite Hc.
    now rewrite (IH (fun m' r' => k (c :: m') r') Hm Hr Hk).
Qed.

Lemma space_stops_token ws :
  forallb isspace ws = true -> stops token_char ws = true.
Proof.
  destruct ws as [|c ws]; [reflexivity|]. simpl. intros H.
  apply andb_true_iff in H as [H _]. unfold token_char. now rewrite H.
Qed.

Lemma CASE_RE_match_declaration kw tok ws :
  is_keyword kw = true -> tok <> [] -> is_token_text tok = true ->
  forallb isspace ws = true ->
  CASE_RE_match (kw ++ tok ++ ws) = Some tok.
Proof.
  intros Hkw Hne Htok Hws. unfold CASE_RE_match.
  rewrite (match_literal_keyword _ _ Hkw).
  destruct tok as [|c tok]; [congruence|].
  unfold is_token_text in Htok. simpl in Htok.
  apply andb_true_iff in Htok as [Hc Htok].
  cbn [app match_plus]. rewrite Hc.
  apply match_star_run; [exact Htok | now apply space_stops_token |].
  rewrite <- (app_nil_r ws) at 1.
  now apply match_star_run.
Qed.

Lemma write_session_case_returns E session_id case_id w :
  fst (write_session_case E session_id case_id w) = Return tt.
Proof.
  unfold write_session_case, try_except.
  destruct (path_write_text E (case_file session_id) case_id w) as [[[]|e] w1];
    reflexivity.
Qed.

Lemma path_write_text_stdout E p text w :
  stdout (snd (path_write_text E p text w)) = stdout w.
Proof.
  unfold path_write_text, bind, os_fault, str_encode, modify, ret, raise.
  destruct (case_open_fault E); [reflexivity|]. cbv beta iota.
  destruct (utf8_encode text); [|reflexivity]. cbv beta iota.
  destruct (case_flush_fault E); reflexivity.
Qed.

Lemma write_session_case_stdout E session_id case_id w :
  stdout (snd (write_session_case E session_id case_id w)) = stdout w.
Proof.
  unfold write_session_case, try_except.
  pose proof (path_write_text_stdout E (case_file session_id) case_id w) as H.
  destruct (path_write_text E (case_file session_id) case_id w) as [[[]|e] w1];
    exact H.
Qed.

(** [main] on an event object whose prompt declares a case. *)
Lemma main_declaration E raw d prompt case_id w :
  parse_stdin_json E raw = JObject d ->
  extract_prompt (JObject d) = Return prompt ->
  CASE_RE_match prompt = Some case_id ->
  let w1 := snd (put E (resolved_session (getpid E) d) case_id w) in
  main E raw w
  = (Return 0%Z, set_stdout (stdout w ++ [block_event case_id]) w1).
Proof.
  intros Hp Hx Hm. unfold main, put. rewrite Hp.
  unfold bind, lift. rewrite Hx, extract_session_id_resolved_prompt, Hm.
  pose proof (write_session_case_returns E
                (resolved_session (getpid E) d) case_id w) as Hr.
  pose proof (write_session_case_stdout E
                (resolved_session (getpid E) d) case_id w) as Hs.
  destruct (write_session_case E (resolved_session (getpid E) d) case_id w)
    as [r w1]. simpl in Hr, Hs. subst r. simpl.
  unfold print, modify, ret, block_event. now rewrite Hs.
Qed.

(** [main] on an event object whose prompt declares nothing. *)
Lemma main_no_declaration E raw d prompt w :
  parse_stdin_json E raw = JObject d ->
  extract_prompt (JObject d) = Return prompt ->
  CASE_RE_match prompt = None ->
  main E raw w = (Return 0%Z, set_stdout (stdout w ++ [JObject []]) w).
Proof.
  intros Hp Hx Hm. unfold main. rewrite Hp.
  unfold bind, lift. rewrite Hx, extract_session_id_resolved_prompt, Hm.
  reflexivity.
Qed.

End Declaration.


Section DeclarationClaims.

Import pywen_userprompt.

(** A text [str.encode] accepts is written whole when the file system
    does not refuse the write. *)
Lemma write_succeeds_encodable E session_id case_id w :
  encodable case_id = true ->
  case_open_fault E = false ->
  case_flush_fault E = None ->
  write_succeeds E session_id case_id w.
Proof.
  intros Henc Ho Hf. apply utf8_encode_encodable in Henc as [bs Hbs].
  unfold write_succeeds, path_write_text, bind, os_fault, str_encode, modify,
    ret, raise.
  rewrite Ho. cbv beta iota. rewrite Hbs. cbv beta iota. now rewrite Hf.
Qed.

(** C9, as stated, fails for a token that cannot be encoded: a lone
    surrogate is neither white space nor a quote, the prompt made of
    CASE_ID= and that token is accepted as a declaration and answered
    with the block event, but [write_text] raises on encoding after it
    opened the file, so that the record of the session holds the empty
    text, not the token. *)
Lemma surrogate_declaration_counterexample :
  is_keyword (py "CASE_ID=") = true
  /\ is_token_text [0xD800] = true
  /\ CASE_RE_match (py "CASE_ID=" ++ [0xD800] ++ []) = Some [0xD800]
  /\ main E_surrogate [] empty_world
     = (Return 0%Z,
        set_stdout [block_event [0xD800]]
          (put_file (case_file (py "S1")) [] empty_world))
  /\ record_of (py "S1") (snd (main E_surrogate [] empty_world))
     <> Some [0xD800].
Proof.
  repeat split; try reflexivity.
  vm_compute. discriminate.
Qed.

(** C9 (amended): a prompt made of the keyword CASE_ID= in any letter
    case, a token of one or more characters that are neither white space
    nor quotes and that can be encoded in UTF-8 (no lone surrogate), and
    any trailing white space (newlines included) is accepted as a case
    declaration; [main] prints the block event, returns 0 and, the file
    system not refusing the write, the value written to the registry for
    the resolved session is the token exactly, without the trailing white
    space. *)
Theorem case_declaration_recorded E raw d w kw tok ws :
  parse_stdin_json E raw = JObject d ->
  extract_prompt (JObject d) = Return (kw ++ tok ++ ws) ->
  is_keyword kw = true ->
  tok <> [] ->
  is_token_text tok = true ->
  forallb isspace ws = true ->
  encodable tok = true ->
  case_open_fault E = false ->
  case_flush_fault E = None ->
  let session_id := resolved_session (getpid E) d in
  let w1 := snd (put E session_id tok w) in
  CASE_RE_match (kw ++ tok ++ ws) = Some tok
  /\ main E raw w
     = (Return 0%Z, set_stdout (stdout w ++ [block_event tok]) w1)
  /\ record_of session_id w1 = Some tok.
Proof.
  intros Hp Hx Hkw Hne Htok Hws Henc Ho Hf session_id w1.
  pose proof (CASE_RE_match_declaration kw tok ws Hkw Hne Htok Hws) as Hm.
  split; [exact Hm|]. split.
  - exact (main_declaration E raw d _ tok w Hp Hx Hm).
  - pose proof (write_succeeds_encodable E session_id tok w Henc Ho Hf) as Hw.
    destruct (write_session_case_success E session_id tok w Hw)
      as (bs & Hbs & Hfile).
    unfold record_of, w1, put. rewrite Hfile. cbn [fmap option_fmap option_map].
    now rewrite (file_text_token _ _ Htok Hbs).
Qed.

Lemma case_declaration_recorded_witness :
  CASE_RE_match (py "cAsE_iD=" ++ py "XYZ" ++ [32; 9; 10]) = Some (py "XYZ")
  /\ main E_declaring [] empty_world
     = (Return 0%Z,
        set_stdout (stdout empty_world ++ [block_event (py "XYZ")])
          (snd (put E_declaring
                  (resolved_session (getpid E_declaring) declaring_members)
                  (py "XYZ") empty_world)))
  /\ record_of (resolved_session (getpid E_declaring) declaring_members)
       (snd (put E_declaring
               (resolved_session (getpid E_declaring) declaring_members)
               (py "XYZ") empty_world))
     = Some (py "XYZ").
Proof.
  apply (case_declaration_recorded E_declaring [] declaring_members
           empty_world (py "cAsE_iD=") (py "XYZ") [32; 9; 10]).
  - reflexivity.
  - reflexivity.
  - reflexivity.
  - discriminate.
  - reflexivity.
  - reflexivity.
  - reflexivity.
  - reflexivity.
  - reflexivity.
Defined.

(** C5: when the extracted prompt is exactly CASE_ID=abc123, [main] puts
    abc123 into the registry for the resolved session (the record file
    holds abc123 when the backing write succeeds), prints the event with
    decision block and returns 0; when the prompt is hello, nothing is
    written and the event printed is the empty object. *)
Theorem declaration_pattern E raw d w :
  parse_stdin_json E raw = JObject d ->
  let session_id := resolved_session (getpid E) d in
  let w1 := snd (put E session_id (py "abc123") w) in
  (extract_prompt (JObject d) = Return (py "CASE_ID=abc123") ->
   main E raw w
   = (Return 0%Z, set_stdout (stdout w ++ [block_event (py "abc123")]) w1)
   /\ (write_succeeds E session_id (py "abc123") w ->
       case_dir w1 !! case_file session_id = Some (py "abc123")))
  /\ (extract_prompt (JObject d) = Return (py "hello") ->
      main E raw w = (Return 0%Z, set_stdout (stdout w ++ [empty_event]) w)).
Proof.
  intros Hp session_id w1. split.
  - intros Hx. split.
    + exact (main_declaration E raw d _ (py "abc123") w Hp Hx eq_refl).
    + intros Hw.
      destruct (write_session_case_success E session_id _ w Hw)
        as (bs & Hbs & Hf).
      vm_compute in Hbs. injection Hbs as <-. exact Hf.
  - intros Hx. exact (main_no_declaration E raw d _ w Hp Hx eq_refl).
Qed.

Lemma declaration_pattern_witness :
  (extract_prompt (JObject abc123_members) = Return (py "CASE_ID=abc123") ->
   main E_abc123 [] empty_world
   = (Return 0%Z,
      set_stdout (stdout empty_world ++ [block_event (py "abc123")])
        (snd (put E_abc123
                (resolved_session (getpid E_abc123) abc123_members)
                (py "abc123") empty_world)))
   /\ (write_succeeds E_abc123
         (resolved_session (getpid E_abc123) abc123_members)
         (py "abc123") empty_world ->
       case_dir
         (snd (put E_abc123
                 (resolved_session (getpid E_abc123) abc123_members)
                 (py "abc123") empty_world))
         !! case_file (resolved_session (getpid E_abc123) abc123_members)
       = Some (py "abc123")))
  /\ (extract_prompt (JObject abc123_members) = Return (py "hello") ->
      main E_abc123 [] empty_world
      = (Return 0%Z,
         set_stdout (stdout empty_world ++ [empty_event]) empty_world)).
Proof.
  apply (declaration_pattern E_abc123 [] abc123_members empty_world).
  reflexivity.
Defined.

End DeclarationClaims.


(** ** The completion-signal emitter *)

Section Emitter.

Import pywen_stop.

(** The handler body returns [file] whatever the append did. *)
Lemma fallback_eval E case_id w :
  fallback E case_id w
  = (Return (py "file"), snd (log_append E (done_line case_id) w)).
Proof.
  unfold fallback, try_except, bind, ret.
  destruct (log_append E (done_line case_id) w) as [[[]|e] w1]; reflexivity.
Qed.

(** [write_done] along its two [try] statements. *)
Lemma write_done_eval E case_id w :
  write_done E case_id w
  = match ensure_fifo E w with
    | (Raise _, w1) => fallback E case_id w1
    | (Return _, w1) =>
        match write_fifo E case_id w1 with
        | (Return v, w2) => (Return v, w2)
        | (Raise e, w2) =>
            if is_OSError e then fallback E case_id w2 else (Raise e, w2)
        end
    end.
Proof.
  unfold write_done, bind, try_except, try_except_OSError, ret.
  destruct (ensure_fifo E w) as [[[]|e] w1]; cbv beta iota.
  - reflexivity.
  - destruct (fallback E case_id w1) as [[v|e'] w2]; reflexivity.
Qed.

(** When the fallback is entered the result is [file] and the world is
    the one the append left. *)
Lemma write_done_fallback E case_id w w1 :
  fallback_entry E case_id w = Some w1 ->
  write_done E case_id w
  = (Return (py "file"), snd (log_append E (done_line case_id) w1)).
Proof.
  unfold fallback_entry. rewrite write_done_eval.
  destruct (ensure_fifo E w) as [[[]|e] w0].
  - destruct (write_fifo E case_id w0) as [[v|e] w2]; [discriminate|].
    destruct (is_OSError e); [|discriminate].
    intros [= <-]. apply fallback_eval.
  - intros [= <-]. apply fallback_eval.
Qed.

(** What the second [try] block can do: return [fifo], or raise
    [OSError], or raise [UnicodeEncodeError] on a record [str.encode]
    refuses. *)
Lemma write_fifo_outcome E case_id w :
  fst (write_fifo E case_id w) = Return (py "fifo")
  \/ fst (write_fifo E case_id w) = Raise OSError
  \/ (fst (write_fifo E case_id w) = Raise UnicodeEncodeError
      /\ utf8_encode (done_line case_id) = None).
Proof.
  unfold write_fifo, os_open, os_write, os_close, try_finally, str_encode,
    bind, gets, modify, os_fault, ret, raise.
  destruct (fifo_open_fault E), (fifo_write_fault E), (fifo_close_fault E),
    (utf8_encode (done_line case_id)) as [bs|],
    (fifo_path w) as [[| |]|] eqn:Hn;
    repeat (simpl; rewrite ?Hn);
    try (destruct (pipe_write E bs); repeat (simpl; rewrite ?Hn)); auto.
Qed.

(** C1, as stated, fails for a string that cannot be encoded: the second
    [try] statement catches [OSError] only, and encoding a lone surrogate
    raises [UnicodeEncodeError] once the pipe is open, past the boundary
    of [write_done]. *)
Theorem write_done_surrogate_raises :
  emit E_quiet [0xD800] fifo_world = (Raise UnicodeEncodeError, fifo_world).
Proof. vm_compute. reflexivity. Qed.

(** Apart from that exception [write_done] returns one of its two
    indicators. *)
Lemma write_done_outcome E case_id w :
  fst (write_done E case_id w) = Return (py "fifo")
  \/ fst (write_done E case_id w) = Return (py "file")
  \/ (fst (write_done E case_id w) = Raise UnicodeEncodeError
      /\ utf8_encode (done_line case_id) = None).
Proof.
  rewrite write_done_eval.
  destruct (ensure_fifo E w) as [[[]|e] w1].
  - destruct (write_fifo_outcome E case_id w1) as [H | [H | [H Hn]]];
      destruct (write_fifo E case_id w1) as [[v|e] w2]; simpl in H;
      try discriminate H.
    + injection H as ->. now left.
    + injection H as ->. simpl. rewrite fallback_eval. right. now left.
    + injection H as ->. simpl. right. right. now split.
  - rewrite fallback_eval. right. now left.
Qed.

(** On a case identifier [str.encode] accepts, [write_done] returns
    [fifo] or [file] and does not raise. *)
Lemma write_done_encodable E case_id w :
  encodable case_id = true ->
  fst (write_done E case_id w) = Return (py "fifo")
  \/ fst (write_done E case_id w) = Return (py "file").
Proof.
  intros Henc.
  destruct (write_done_outcome E case_id w) as [H | [H | [_ Hn]]]; auto.
  exfalso.
  assert (He : encodable (done_line case_id) = true).
  { unfold done_line. rewrite encodable_app, Henc. reflexivity. }
  apply utf8_encode_encodable in He as [bs Hbs]. congruence.
Qed.

(** C1 (amended): for every case_id string that can be encoded in UTF-8
    (no lone surrogate), [write_done] returns exactly one of the two
    indicators [fifo] and [file] and never raises past its boundary,
    whether the pipe exists, is of the wrong kind, cannot be created or
    rejects the write, and whether or not the fallback append fails. *)
Theorem write_done_returns_indicator E case_id w :
  encodable case_id = true ->
  fst (emit E case_id w) = Return (py "fifo")
  \/ fst (emit E case_id w) = Return (py "file").
Proof.
  intros Henc. unfold emit.
  destruct (write_done_outcome E case_id w) as [H | [H | [_ Hn]]]; auto.
  exfalso.
  assert (He : encodable (done_line case_id) = true).
  { unfold done_line. rewrite encodable_app, Henc. reflexivity. }
  apply utf8_encode_encodable in He as [bs Hbs]. congruence.
Qed.

Lemma write_done_returns_indicator_witness :
  fst (emit E_no_fifo_no_log (py "X") empty_world) = Return (py "fifo")
  \/ fst (emit E_no_fifo_no_log (py "X") empty_world) = Return (py "file").
Proof. apply write_done_returns_indicator. reflexivity. Defined.

End Emitter.


Section EmitterClaims.

Import pywen_stop.

(** The two [try] blocks leave the fallback log alone. *)
Lemma ensure_fifo_log E w :
  fallback_log (snd (ensure_fifo E w)) = fallback_log w.
Proof.
  unfold ensure_fifo, fifo_exists, fifo_is_fifo, fifo_unlink, os_mkfifo,
    bind, gets, modify, fault, ret, raise.
  destruct (fifo_exists_fault E), (fifo_is_fifo_fault E),
    (fifo_unlink_fault E), (mkfifo_fault E),
    (fifo_path w) as [[| |]|] eqn:Hn;
    repeat (simpl; rewrite ?Hn); reflexivity.
Qed.

Lemma write_fifo_log E case_id w :
  fallback_log (snd (write_fifo E case_id w)) = fallback_log w.
Proof.
  unfold write_fifo, os_open, os_write, os_close, try_finally, str_encode,
    bind, gets, modify, os_fault, ret, raise.
  destruct (fifo_open_fault E), (fifo_write_fault E), (fifo_close_fault E),
    (utf8_encode (done_line case_id)) as [bs|],
    (fifo_path w) as [[| |]|] eqn:Hn;
    repeat (simpl; rewrite ?Hn);
    try (destruct (pipe_write E bs); repeat (simpl; rewrite ?Hn));
    reflexivity.
Qed.

Lemma fallback_entry_log E case_id w w1 :
  fallback_entry E case_id w = Some w1 -> fallback_log w1 = fallback_log w.
Proof.
  unfold fallback_entry.
  pose proof (ensure_fifo_log E w) as H1.
  destruct (ensure_fifo E w) as [[[]|e] w0]; simpl in H1.
  - pose proof (write_fifo_log E case_id w0) as H2.
    destruct (write_fifo E case_id w0) as [[v|e] w2]; [discriminate|].
    simpl in H2. destruct (is_OSError e); [|discriminate].
    intros [= <-]. congruence.
  - intros [= <-]. exact H1.
Qed.

(** A successful append adds the encoded text at the end of the log. *)
Lemma log_append_success E text w :
  fst (log_append E text w) = Return tt ->
  exists bs, utf8_encode text = Some bs
             /\ fallback_log (snd (log_append E text w))
                = Some (default [] (fallback_log w) ++ bs).
Proof.
  unfold log_append, str_encode, bind, modify, os_fault, ret, raise.
  destruct (log_open_fault E); [discriminate|]. cbv beta iota.
  destruct (utf8_encode text) as [bs|]; [|discriminate]. cbv beta iota.
  destruct (log_flush_fault E); [discriminate|].
  intros _. exists bs. split; [reflexivity|].
  simpl. now rewrite app_nil_r.
Qed.

(** [file] is returned from a fallback handler only. *)
Lemma write_done_file_fallback E case_id w :
  fst (write_done E case_id w) = Return (py "file") ->
  exists w1, fallback_entry E case_id w = Some w1.
Proof.
  unfold fallback_entry. rewrite write_done_eval.
  destruct (ensure_fifo E w) as [[[]|e] w0]; [|eauto].
  destruct (write_fifo_outcome E case_id w0) as [H | [H | [H _]]];
    destruct (write_fifo E case_id w0) as [[v|e] w2]; simpl in H;
    try discriminate H; injection H as ->; simpl.
  - discriminate.
  - eauto.
  - discriminate.
Qed.

(** C4, as stated, fails: with the pipe unavailable, a run whose append
    to the log fails and a run whose append succeeds hand the caller the
    same value, so the failure is not told apart from a delivery. *)
Lemma fallback_failure_counterexample :
  fallback_append_fails E_no_fifo_no_log (py "X") empty_world
  /\ fallback_append_ok E_no_fifo (py "X") empty_world
  /\ ~ (fst (emit E_no_fifo_no_log (py "X") empty_world)
        <> fst (emit E_no_fifo (py "X") empty_world)).
Proof.
  split; [|split].
  - exists empty_world, OSError. split; reflexivity.
  - exists empty_world. split; reflexivity.
  - intros H. apply H. reflexivity.
Qed.

(** C4 (amended): when the fallback append to the log fails, [write_done]
    does not raise and returns [file], which is also what it returns
    after a fallback append that succeeded: the caller gets no indicator
    of the failure. *)
Theorem fallback_failure_returns_file E case_id w :
  fallback_append_fails E case_id w ->
  fst (emit E case_id w) = Return (py "file")
  /\ (forall E' case_id' w',
        fallback_append_ok E' case_id' w' ->
        fst (emit E' case_id' w') = fst (emit E case_id w)).
Proof.
  intros (w1 & e & Hent & _). unfold emit.
  rewrite (write_done_fallback _ _ _ _ Hent). split; [reflexivity|].
  intros E' c' w' (w1' & Hent' & _).
  now rewrite (write_done_fallback _ _ _ _ Hent').
Qed.

Lemma fallback_failure_returns_file_witness :
  fst (emit E_no_fifo_no_log (py "X") empty_world) = Return (py "file")
  /\ (forall E' case_id' w',
        fallback_append_ok E' case_id' w' ->
        fst (emit E' case_id' w')
        = fst (emit E_no_fifo_no_log (py "X") empty_world)).
Proof.
  apply fallback_failure_returns_file.
  exists empty_world, OSError. split; reflexivity.
Defined.

(** C6, as stated, fails: with the pipe unavailable and the log not
    writable, [write_done] returns [file] and the log gains nothing. *)
Lemma file_without_line_counterexample :
  fst (emit E_no_fifo_no_log (py "X") empty_world) = Return (py "file")
  /\ ~ (exists bs,
          utf8_encode (py "X" ++ py " DONE" ++ [0x0A]) = Some bs
          /\ fallback_log (snd (emit E_no_fifo_no_log (py "X") empty_world))
             = Some (default [] (fallback_log empty_world) ++ bs)).
Proof.
  split; [reflexivity|].
  intros (bs & _ & H). vm_compute in H. discriminate H.
Qed.

(** C6 (amended): whenever [write_done] returns [file] and its fallback
    append did not fail, the log after the call is the log before it
    followed by the bytes of the one line <case_id> DONE and a newline,
    for the case_id passed in. *)
Theorem file_appends_one_line E case_id w w' :
  emit E case_id w = (Return (py "file"), w') ->
  fallback_append_ok E case_id w ->
  exists bs,
    utf8_encode (case_id ++ py " DONE" ++ [0x0A]) = Some bs
    /\ fallback_log w' = Some (default [] (fallback_log w) ++ bs).
Proof.
  intros Hemit (w1 & Hent & Hok). unfold emit in Hemit.
  rewrite (write_done_fallback _ _ _ _ Hent) in Hemit.
  injection Hemit as <-.
  destruct (log_append_success _ _ _ Hok) as (bs & Hbs & Hlog).
  exists bs. split; [exact Hbs|].
  now rewrite Hlog, (fallback_entry_log _ _ _ _ Hent).
Qed.

Lemma file_appends_one_line_witness :
  exists bs,
    utf8_encode (py "X" ++ py " DONE" ++ [0x0A]) = Some bs
    /\ fallback_log (snd (emit E_no_fifo (py "X") empty_world))
       = Some (default [] (fallback_log empty_world) ++ bs).
Proof.
  apply (file_appends_one_line E_no_fifo (py "X") empty_world).
  - reflexivity.
  - exists empty_world. split; reflexivity.
Defined.

End EmitterClaims.


(** ** The two invocations *)

(** What holds of every character of a text holds of every character of
    what [strip], [splitlines] and the newline translation make of it. *)
Section Characters.

Variable P : N -> bool.

Lemma forallb_lstrip s : forallb P s = true -> forallb P (lstrip s) = true.
Proof.
  induction s as [|c s IH]; simpl; [auto|].
  intros H. destruct (isspace c); [|exact H].
  apply andb_true_iff in H as [_ H]. auto.
Qed.

Lemma forallb_rev_true s : forallb P s = true -> forallb P (rev s) = true.
Proof.
  rewrite !forallb_forall. intros H c Hc. apply H. now apply in_rev.
Qed.

Lemma forallb_strip s : forallb P s = true -> forallb P (strip s) = true.
Proof.
  intros H. unfold strip, rstrip.
  now apply forallb_rev_true, forallb_lstrip, forallb_rev_true,
    forallb_lstrip.
Qed.

Lemma forallb_splitlines_from cur s l :
  forallb P cur = true -> forallb P s = true ->
  In l (splitlines_from cur s) -> forallb P l = true.
Proof.
  revert cur. induction s as [s IH] using (induction_ltof1 _ (@length N)).
  unfold ltof in IH. intros cur Hcur Hs.
  destruct s as [|c s]; simpl.
  - destruct cur; [contradiction|]. intros [<- | []].
    now apply forallb_rev_true.
  - simpl in Hs. apply andb_true_iff in Hs as [Hc Hs].
    destruct (is_linebreak c).
    + intros [<- | Hin]; [now apply forallb_rev_true|].
      destruct s as [|c' s'].
      * contradiction.
      * simpl in Hs. apply andb_true_iff in Hs as [Hc' Hs'].
        destruct ((c =? 13) && (c' =? 10)).
        -- apply (IH s') with (cur := []); simpl; auto; lia.
        -- apply (IH (c' :: s')) with (cur := []); simpl; auto; try lia.
           now rewrite Hc', Hs'.
    + apply IH; simpl; [lia | now rewrite Hc, Hcur | exact Hs].
Qed.

Lemma forallb_universal_newlines s :
  P 0x0A = true -> forallb P s = true ->
  forallb P (universal_newlines s) = true.
Proof.
  intros Hnl. induction s as [s IH] using (induction_ltof1 _ (@length N)).
  unfold ltof in IH. destruct s as [|c s]; simpl; [auto|].
  intros H. apply andb_true_iff in H as [Hc Hs].
  destruct (c =? 13).
  - simpl. rewrite Hnl. simpl. destruct s as [|c' s']; [reflexivity|].
    simpl in Hs. apply andb_true_iff in Hs as [Hc' Hs'].
    destruct (c' =? 10).
    + apply IH; simpl; [lia | exact Hs'].
    + apply IH; simpl; [lia | now rewrite Hc', Hs'].
  - simpl. rewrite Hc. apply IH; simpl; [lia | exact Hs].
Qed.

End Characters.

Section Invocations.

Import pywen_stop.

(** The text of a record file can always be encoded again. *)
Lemma file_text_encodable bs : encodable (file_text bs) = true.
Proof.
  unfold file_text, encodable.
  apply forallb_universal_newlines; [reflexivity|].
  apply utf8_decode_ignore_encodable.
Qed.

(** So can what [read_case_id] returns. *)
Lemma read_case_id_encodable E session_id w :
  exists v, read_case_id E session_id w = (Return v, w)
            /\ encodable v = true.
Proof.
  rewrite read_case_id_eval. eexists. split; [reflexivity|].
  destruct (case_exists_fault E); [reflexivity|].
  destruct (case_dir w !! case_file session_id) as [bs|]; [|reflexivity].
  destruct (case_read_fault E); [reflexivity|].
  pose proof (forallb_strip _ _ (file_text_encodable bs)) as Hs.
  destruct (strip (file_text bs)) as [|c txt]; [reflexivity|].
  destruct (splitlines (c :: txt)) as [|l ls] eqn:Hsp; [reflexivity|].
  apply forallb_strip.
  apply (forallb_splitlines_from _ [] (c :: txt)); [reflexivity | exact Hs |].
  unfold splitlines in Hsp. rewrite Hsp. now left.
Qed.

(** [write_done] prints nothing. *)
Lemma ensure_fifo_stdout E w : stdout (snd (ensure_fifo E w)) = stdout w.
Proof.
  unfold ensure_fifo, fifo_exists, fifo_is_fifo, fifo_unlink, os_mkfifo,
    bind, gets, modify, fault, ret, raise.
  destruct (fifo_exists_fault E), (fifo_is_fifo_fault E),
    (fifo_unlink_fault E), (mkfifo_fault E),
    (fifo_path w) as [[| |]|] eqn:Hn;
    repeat (simpl; rewrite ?Hn); reflexivity.
Qed.

Lemma write_fifo_stdout E case_id w :
  stdout (snd (write_fifo E case_id w)) = stdout w.
Proof.
  unfold write_fifo, os_open, os_write, os_close, try_finally, str_encode,
    bind, gets, modify, os_fault, ret, raise.
  destruct (fifo_open_fault E), (fifo_write_fault E), (fifo_close_fault E),
    (utf8_encode (done_line case_id)) as [bs|],
    (fifo_path w) as [[| |]|] eqn:Hn;
    repeat (simpl; rewrite ?Hn);
    try (destruct (pipe_write E bs); repeat (simpl; rewrite ?Hn));
    reflexivity.
Qed.

Lemma log_append_stdout E text w :
  stdout (snd (log_append E text w)) = stdout w.
Proof.
  unfold log_append, str_encode, bind, modify, os_fault, ret, raise.
  destruct (log_open_fault E), (utf8_encode text), (log_flush_fault E);
    reflexivity.
Qed.

Lemma write_done_stdout E case_id w :
  stdout (snd (write_done E case_id w)) = stdout w.
Proof.
  rewrite write_done_eval.
  pose proof (ensure_fifo_stdout E w) as H1.
  destruct (ensure_fifo E w) as [[[]|e] w1]; simpl in H1.
  - pose proof (write_fifo_stdout E case_id w1) as H2.
    destruct (write_fifo E case_id w1) as [[v|e] w2]; simpl in H2.
    + simpl. congruence.
    + destruct (is_OSError e); [|simpl; congruence].
      rewrite fallback_eval. simpl. rewrite log_append_stdout. congruence.
  - rewrite fallback_eval. simpl. rewrite log_append_stdout. congruence.
Qed.

(** On an event that is an object (or on input that does not parse, which
    is taken as the empty object) the Stop hook prints exactly one event,
    the completion message, and returns 0. *)
Lemma stop_main_object E raw d w :
  parse_stdin_json E raw = JObject d ->
  exists case_id mode w',
    main E raw w = (Return 0%Z, w')
    /\ stdout w' = stdout w ++ [done_event case_id mode]
    /\ (mode = py "fifo" \/ mode = py "file").
Proof.
  intros Hp. unfold main. rewrite Hp. unfold bind at 1, lift.
  rewrite extract_session_id_resolved.
  destruct (read_case_id_encodable E (resolved_session (getpid E) d) w)
    as (c & Hc & Henc).
  unfold bind at 1. rewrite Hc.
  pose proof (write_done_encodable E c w Henc) as Hm.
  pose proof (write_done_stdout E c w) as Hs.
  unfold bind at 1.
  destruct (write_done E c w) as [[mode|e] w2]; simpl in Hm, Hs.
  - exists c, mode. eexists. split; [reflexivity|]. split.
    + simpl. now rewrite Hs.
    + destruct Hm as [[= ->] | [= ->]]; auto.
  - destruct Hm as [Hm | Hm]; discriminate Hm.
Qed.

End Invocations.


Section InvocationClaims.

Lemma first_str_object keys d :
  exists r, pywen_userprompt.first_str keys (JObject d) = Return r.
Proof.
  induction keys as [|k keys IH]; simpl; [eauto|].
  destruct (as_str (default JNull (assoc k d))); eauto.
Qed.

Lemma extract_prompt_object d :
  exists prompt, pywen_userprompt.extract_prompt (JObject d) = Return prompt.
Proof.
  unfold pywen_userprompt.extract_prompt.
  destruct (first_str_object pywen_userprompt.PROMPT_KEYS_IN d) as [r ->].
  cbn [obind]. destruct r as [v|]; [eauto|].
  cbn [py_get obind].
  destruct (default JNull (assoc (py "input") d)) as [| | | | | |inp];
    cbn [is_dict]; eauto.
  destruct (first_str_object pywen_userprompt.PROMPT_KEYS_IN inp) as [r ->].
  cbn [obind]. destruct r; eauto.
Qed.

(** On an event that is an object (or on input that does not parse) the
    prompt hook prints exactly one event, the block event or the empty
    one, and returns 0. *)
Lemma prompt_main_object E raw d w :
  pywen_userprompt.parse_stdin_json E raw = JObject d ->
  exists event w',
    pywen_userprompt.main E raw w = (Return 0%Z, w')
    /\ stdout w' = stdout w ++ [event].
Proof.
  intros Hp. destruct (extract_prompt_object d) as [prompt Hx].
  destruct (pywen_userprompt.CASE_RE_match prompt) as [case_id|] eqn:Hm.
  - rewrite (main_declaration E raw d prompt case_id w Hp Hx Hm).
    eexists. eexists. split; reflexivity.
  - rewrite (main_no_declaration E raw d prompt w Hp Hx Hm).
    eexists. eexists. split; reflexivity.
Qed.

(** A value that is no [dict] has no [get]. *)
Lemma py_get_non_object v k : is_dict v = false -> py_get v k = Raise AttributeError.
Proof. destruct v; simpl; [reflexivity .. | discriminate]. Qed.

(** C3 fails on the code for valid JSON that is not an object: with
    standard input holding such a value, both hooks end on the
    [AttributeError] of the first [data.get], print nothing and exit
    with status 1. *)
Theorem non_object_event_crashes E raw v w :
  raw <> [] ->
  json_loads E raw = Return v ->
  is_dict v = false ->
  pywen_stop.main E raw w = (Raise AttributeError, w)
  /\ pywen_userprompt.main E raw w = (Raise AttributeError, w)
  /\ sys_exit (pywen_stop.main E raw) w = (1%Z, w)
  /\ sys_exit (pywen_userprompt.main E raw) w = (1%Z, w).
Proof.
  intros Hraw Hl Hv.
  assert (Hs : pywen_stop.main E raw w = (Raise AttributeError, w)).
  { unfold pywen_stop.main, pywen_stop.parse_stdin_json.
    destruct raw as [|c raw]; [congruence|]. rewrite Hl.
    unfold pywen_stop.extract_session_id. cbn [pywen_stop.first_nonempty_str].
    rewrite py_get_non_object by exact Hv. reflexivity. }
  assert (Hu : pywen_userprompt.main E raw w = (Raise AttributeError, w)).
  { unfold pywen_userprompt.main, pywen_userprompt.parse_stdin_json.
    rewrite Hl. unfold pywen_userprompt.extract_prompt.
    cbn [pywen_userprompt.PROMPT_KEYS_IN pywen_userprompt.first_str].
    rewrite py_get_non_object by exact Hv. reflexivity. }
  unfold sys_exit. rewrite Hs, Hu. auto.
Qed.

Lemma non_object_event_crashes_witness :
  pywen_stop.main E_quiet (py "[]") empty_world
    = (Raise AttributeError, empty_world)
  /\ pywen_userprompt.main E_quiet (py "[]") empty_world
     = (Raise AttributeError, empty_world)
  /\ sys_exit (pywen_stop.main E_quiet (py "[]")) empty_world
     = (1%Z, empty_world)
  /\ sys_exit (pywen_userprompt.main E_quiet (py "[]")) empty_world
     = (1%Z, empty_world).
Proof.
  apply (non_object_event_crashes E_quiet (py "[]") (JArray []) empty_world);
    [discriminate | reflexivity | reflexivity].
Defined.

End InvocationClaims.

(** ** Worked examples *)

Section Examples.

Import pywen_userprompt.

(** A newline after the token is trailing white space; text after it is
    not, nor is a blank before the keyword or a quote in the token. *)
Example match_trailing_newlines :
  CASE_RE_match (py "case_id=a" ++ [10; 10]) = Some (py "a").
Proof. vm_compute. reflexivity. Qed.

Example no_match_second_line :
  CASE_RE_match (py "case_id=a" ++ [10] ++ py "b") = None.
Proof. vm_compute. reflexivity. Qed.

Example no_match_leading_blank : CASE_RE_match (py " CASE_ID=a") = None.
Proof. vm_compute. reflexivity. Qed.

Example no_match_quote : CASE_RE_match (py "CASE_ID=a'") = None.
Proof. vm_compute. reflexivity. Qed.

Example no_match_empty_token : CASE_RE_match (py "CASE_ID=") = None.
Proof. vm_compute. reflexivity. Qed.

(** Under [re.IGNORECASE] the long s and the dotted capital I stand for
    [S] and [I]. *)
Example match_unicode_case :
  CASE_RE_match [0x63; 0x61; 0x17F; 0x65; 0x5F; 0x130; 0x64; 0x3D; 0x78]
  = Some (py "x").
Proof. vm_compute. reflexivity. Qed.

(** The end-to-end scenario: the prompt hook records XYZ for session S1;
    the Stop hook of the same session then reports XYZ, here through the
    pipe. A session that declared nothing resolves to UNKNOWN. *)
Example end_to_end :
  let w1 := snd (main (quiet_env (loads_const (JObject xyz_members)))
                   (py "{}") empty_world) in
  let w2 := snd (pywen_stop.main
                   (quiet_env (loads_const (JObject s1_members)))
                   (py "{}") w1) in
  stdout w2 = [block_event (py "XYZ"); done_event (py "XYZ") (py "fifo")]
  /\ fifo_stream w2 = py "XYZ DONE" ++ [10].
Proof. vm_compute. split; reflexivity. Qed.

Example missing_declaration :
  fst (get E_quiet (py "S2") empty_world) = Return (py "UNKNOWN").
Proof. vm_compute. reflexivity. Qed.

End Examples.


(** * Further properties of the two scripts *)

(** ** What [strip] and [splitlines] leave *)

Lemma lstrip_spec s :
  exists p, s = p ++ lstrip s /\ forallb isspace p = true
            /\ match lstrip s with
               | [] => True
               | c :: _ => isspace c = false
               end.
Proof.
  induction s as [|c s (p & Hs & Hp & Hh)]; simpl.
  - exists []. auto.
  - destruct (isspace c) eqn:Hc.
    + exists (c :: p). simpl. rewrite Hc, Hp. split; [now f_equal | auto].
    + exists []. simpl. rewrite Hc. auto.
Qed.

Lemma rstrip_spec s :
  exists q, s = rstrip s ++ q /\ forallb isspace q = true
            /\ match rev (rstrip s) with
               | [] => True
               | c :: _ => isspace c = false
               end.
Proof.
  unfold rstrip. destruct (lstrip_spec (rev s)) as (p & Hs & Hp & Hh).
  exists (rev p). rewrite rev_involutive. split; [|split].
  - rewrite <- rev_app_distr, <- Hs. symmetry. apply rev_involutive.
  - rewrite forallb_forall in *. intros c Hc. apply Hp. now apply in_rev.
  - exact Hh.
Qed.

Lemma lstrip_head_id c s : isspace c = false -> lstrip (c :: s) = c :: s.
Proof. intros H. simpl. now rewrite H. Qed.

(** A stripped text begins and ends with a character that is no white
    space. *)
Lemma strip_head s c r : strip s = c :: r -> isspace c = false.
Proof.
  unfold strip. intros H.
  destruct (rstrip_spec (lstrip s)) as (q & Hq & _ & _).
  rewrite H in Hq. destruct (lstrip_spec s) as (_ & _ & _ & Hh).
  rewrite Hq in Hh. exact Hh.
Qed.

Lemma strip_last s :
  match rev (strip s) with [] => True | c :: _ => isspace c = false end.
Proof.
  unfold strip. destruct (rstrip_spec (lstrip s)) as (_ & _ & _ & H). exact H.
Qed.

Lemma rstrip_head_nonempty c s : isspace c = false -> rstrip (c :: s) <> [].
Proof.
  intros Hc Hn. destruct (rstrip_spec (c :: s)) as (q & Hq & Hsp & _).
  rewrite Hn in Hq. simpl in Hq. subst q. simpl in Hsp.
  rewrite Hc in Hsp. discriminate.
Qed.

Lemma strip_idempotent s : strip (strip s) = strip s.
Proof.
  pose proof (strip_last s) as Hl.
  destruct (strip s) as [|c r] eqn:Hs; [reflexivity|].
  pose proof (strip_head _ _ _ Hs) as Hc.
  unfold strip at 1. rewrite (lstrip_head_id _ _ Hc). unfold rstrip.
  destruct (rev (c :: r)) as [|d t] eqn:Hr.
  - apply (f_equal (@rev N)) in Hr. rewrite rev_involutive in Hr.
    discriminate.
  - rewrite (lstrip_head_id _ _ Hl), <- Hr. apply rev_involutive.
Qed.

(** The first line of a text that begins with an ordinary character
    begins with that character. *)
Lemma splitlines_from_head cur s :
  cur <> [] ->
  exists m ls, splitlines_from cur s = (rev cur ++ m) :: ls.
Proof.
  revert cur. induction s as [|c s IH]; intros cur Hcur; simpl.
  - destruct cur; [congruence|]. exists [], []. now rewrite app_nil_r.
  - destruct (is_linebreak c).
    + eexists [], _. now rewrite app_nil_r.
    + destruct (IH (c :: cur)) as (m & ls & H); [discriminate|].
      exists (c :: m), ls. rewrite H. simpl. now rewrite <- app_assoc.
Qed.

(** No line of [splitlines] holds a line boundary. *)
Lemma splitlines_from_no_break_inside cur s l :
  forallb (fun c => negb (is_linebreak c)) cur = true ->
  In l (splitlines_from cur s) ->
  forallb (fun c => negb (is_linebreak c)) l = true.
Proof.
  revert cur. induction s as [s IH] using (induction_ltof1 _ (@length N)).
  unfold ltof in IH. intros cur Hcur.
  destruct s as [|c s]; simpl.
  - destruct cur; [contradiction|]. intros [<- | []].
    now apply forallb_rev_true.
  - destruct (is_linebreak c) eqn:Hc.
    + intros [<- | Hin]; [now apply forallb_rev_true|].
      destruct s as [|c' s']; [contradiction|].
      destruct ((c =? 13) && (c' =? 10)).
      * apply (IH s') with (cur := []); simpl; auto; lia.
      * apply (IH (c' :: s')) with (cur := []); simpl; auto; lia.
    + apply IH; simpl; [lia | now rewrite Hc, Hcur].
Qed.

Lemma isspace_not_break c : isspace c = false -> is_linebreak c = false.
Proof.
  intros H. destruct (is_linebreak c) eqn:E; [|reflexivity].
  apply is_linebreak_isspace in E. congruence.
Qed.

(** The stripped first line of a stripped text that is not empty is not
    empty either. *)
Lemma strip_first_line_nonempty c r :
  isspace c = false ->
  exists l ls, splitlines (c :: r) = l :: ls /\ strip l <> [].
Proof.
  intros Hc. unfold splitlines. simpl.
  rewrite (isspace_not_break _ Hc).
  destruct (splitlines_from_head [c] r) as (m & ls & H); [discriminate|].
  exists (c :: m), ls. split; [exact H|].
  unfold strip. rewrite (lstrip_head_id _ _ Hc).
  now apply rstrip_head_nonempty.
Qed.


(** ** More on the registry *)

Section RegistryMore.

Import pywen_stop pywen_userprompt.

(** [read_case_id] in terms of the record text. *)
Lemma read_case_id_record E session_id w :
  read_case_id E session_id w =
    (Return
       match case_exists_fault E, case_dir w !! case_file session_id,
             case_read_fault E with
       | None, Some bs, None => first_record_line (file_text bs)
       | _, _, _ => UNKNOWN
       end, w).
Proof.
  rewrite read_case_id_eval. unfold first_record_line, first_line.
  destruct (case_exists_fault E); [reflexivity|].
  destruct (case_dir w !! case_file session_id) as [bs|]; [|reflexivity].
  destruct (case_read_fault E); [reflexivity|].
  destruct (strip (file_text bs)) as [|c txt]; [reflexivity|].
  destruct (splitlines (c :: txt)) as [|l ls] eqn:Hsp; [|reflexivity].
  exfalso. revert Hsp. now apply splitlines_nonempty.
Qed.

Lemma first_record_line_wellformed text :
  encodable text = true ->
  first_record_line text <> []
  /\ strip (first_record_line text) = first_record_line text
  /\ single_line (first_record_line text) = true
  /\ encodable (first_record_line text) = true.
Proof.
  intros Henc. unfold first_record_line, first_line.
  pose proof (forallb_strip _ _ Henc) as Hs.
  destruct (strip text) as [|c r] eqn:Ht.
  { repeat split; try reflexivity. discriminate. }
  pose proof (strip_head _ _ _ Ht) as Hc.
  destruct (strip_first_line_nonempty c r Hc) as (l & ls & Hsp & Hne).
  rewrite Hsp. cbn [hd]. split; [exact Hne|]. split; [|split].
  - apply strip_idempotent.
  - apply forallb_strip.
    apply (splitlines_from_no_break_inside [] (c :: r)); [reflexivity|].
    unfold splitlines in Hsp. rewrite Hsp. now left.
  - apply forallb_strip.
    apply (forallb_splitlines_from _ [] (c :: r)); [reflexivity | exact Hs |].
    unfold splitlines in Hsp. rewrite Hsp. now left.
Qed.

(** [read_case_id] never raises, changes nothing, and what it returns is
    fit to be a record: not empty, without surrounding white space,
    without line boundary, and encodable in UTF-8. *)
Theorem read_case_id_wellformed E session_id w :
  exists v,
    read_case_id E session_id w = (Return v, w)
    /\ v <> []
    /\ strip v = v
    /\ single_line v = true
    /\ encodable v = true.
Proof.
  rewrite read_case_id_record. eexists. split; [reflexivity|].
  assert (Hu : UNKNOWN <> [] /\ strip UNKNOWN = UNKNOWN
               /\ single_line UNKNOWN = true /\ encodable UNKNOWN = true).
  { repeat split. discriminate. }
  destruct (case_exists_fault E); [exact Hu|].
  destruct (case_dir w !! case_file session_id) as [bs|]; [|exact Hu].
  destruct (case_read_fault E); [exact Hu|].
  apply first_record_line_wellformed, file_text_encodable.
Qed.

(** The world [write_session_case] leaves: the one it found, or that
    world with the record file of the session replaced. *)
Lemma write_session_case_world E session_id case_id w :
  snd (write_session_case E session_id case_id w) = w
  \/ exists bs,
       snd (write_session_case E session_id case_id w)
       = set_case_dir (<[case_file session_id := bs]> (case_dir w)) w.
Proof.
  unfold write_session_case, try_except, path_write_text, bind, os_fault,
    str_encode, modify, put_file, ret, raise.
  destruct (case_open_fault E); [now left|]. cbv beta iota.
  destruct (utf8_encode case_id) as [bs|]; cbv beta iota.
  - destruct (case_flush_fault E) as [n|]; right; eexists; simpl;
      rewrite ?insert_insert_eq; reflexivity.
  - right. eexists. simpl. reflexivity.
Qed.

(** [write_session_case] never raises, whatever [write_text] does, and
    leaves the pipe, the log and what was printed as they were. *)
Theorem write_session_case_frame E session_id case_id w :
  fst (write_session_case E session_id case_id w) = Return tt
  /\ fifo_path (snd (write_session_case E session_id case_id w))
     = fifo_path w
  /\ fifo_stream (snd (write_session_case E session_id case_id w))
     = fifo_stream w
  /\ fallback_log (snd (write_session_case E session_id case_id w))
     = fallback_log w
  /\ stdout (snd (write_session_case E session_id case_id w)) = stdout w.
Proof.
  split; [apply write_session_case_returns|].
  destruct (write_session_case_world E session_id case_id w)
    as [-> | [bs ->]]; repeat split; auto.
Qed.

(** Last write wins, without history: when the backing write of a [put]
    succeeds, the world is the same whether or not another [put] for the
    session came before, whatever that one did. *)
Theorem put_last_write_wins E1 E2 session_id c1 c2 w :
  write_succeeds E2 session_id c2 w ->
  snd (put E2 session_id c2 (snd (put E1 session_id c1 w)))
  = snd (put E2 session_id c2 w).
Proof.
  unfold write_succeeds, put. intros Hw.
  assert (Hput : forall w0,
            snd (write_session_case E2 session_id c2 w0)
            = set_case_dir
                (<[case_file session_id :=
                     default [] (utf8_encode c2)]> (case_dir w0)) w0).
  { intros w0. revert Hw.
    unfold write_session_case, try_except, path_write_text, bind, os_fault,
      str_encode, modify, put_file, ret, raise.
    destruct (case_open_fault E2); [discriminate|]. cbv beta iota.
    destruct (utf8_encode c2) as [bs|]; [|discriminate]. cbv beta iota.
    destruct (case_flush_fault E2); [discriminate|]. intros _. simpl.
    now rewrite insert_insert_eq. }
  rewrite !Hput.
  destruct (write_session_case_world E1 session_id c1 w)
    as [-> | [bs ->]]; [reflexivity|].
  unfold set_case_dir. simpl. now rewrite insert_insert_eq.
Qed.

Lemma put_last_write_wins_witness :
  snd (put E_quiet (py "S1") (py "B")
         (snd (put E_quiet (py "S1") (py "A") empty_world)))
  = snd (put E_quiet (py "S1") (py "B") empty_world).
Proof. apply put_last_write_wins. reflexivity. Defined.

(** A [put] whose case identifier cannot be encoded (a lone surrogate)
    is not a no-op: the file was opened for writing before the text was
    encoded, so the record of the session is left empty and a later [get]
    answers [UNKNOWN], whatever was recorded before. *)
Theorem put_unencodable_truncates E E' session_id case_id w :
  case_open_fault E = false ->
  utf8_encode case_id = None ->
  case_dir (snd (put E session_id case_id w)) !! case_file session_id
    = Some []
  /\ fst (get E' session_id (snd (put E session_id case_id w)))
     = Return UNKNOWN.
Proof.
  intros Ho Hn.
  assert (Hw : snd (put E session_id case_id w)
               = put_file (case_file session_id) [] w).
  { unfold put, write_session_case, try_except, path_write_text, bind,
      os_fault, str_encode, modify, ret, raise.
    rewrite Ho. cbv beta iota. rewrite Hn. reflexivity. }
  rewrite Hw. unfold get. rewrite read_case_id_record.
  unfold put_file. simpl. rewrite lookup_insert_eq. split; [reflexivity|].
  destruct (case_exists_fault E'), (case_read_fault E'); reflexivity.
Qed.

Lemma put_unencodable_truncates_witness :
  case_dir (snd (put E_quiet (py "S1") [0xD800] unknown_world))
    !! case_file (py "S1") = Some []
  /\ fst (get E_quiet (py "S1")
            (snd (put E_quiet (py "S1") [0xD800] unknown_world)))
     = Return UNKNOWN.
Proof. apply put_unencodable_truncates; reflexivity. Defined.

(** For any case identifier whose backing write succeeds, white space
    and line breaks included, a later [get] returns what [read_case_id]
    makes of it: the stripped first line of the stripped text, with
    [\r\n] and [\r] read as [\n], or [UNKNOWN] when it is blank. *)
Theorem put_get_first_line E E' session_id case_id w :
  write_succeeds E session_id case_id w ->
  read_succeeds E' ->
  fst (get E' session_id (snd (put E session_id case_id w)))
  = Return (first_record_line (universal_newlines case_id)).
Proof.
  intros Hw [Hex Hrd]. unfold get, put.
  destruct (write_session_case_success _ _ _ _ Hw) as (bs & Hbs & Hfile).
  rewrite read_case_id_record, Hex, Hrd, Hfile. cbn [fst].
  unfold file_text. now rewrite (utf8_decode_encode _ _ Hbs).
Qed.

Lemma put_get_first_line_witness :
  fst (get E_quiet (py "S1")
         (snd (put E_quiet (py "S1")
                 (py " a b" ++ [13; 10] ++ py "c") empty_world)))
  = Return (first_record_line
              (universal_newlines (py " a b" ++ [13; 10] ++ py "c"))).
Proof.
  apply put_get_first_line; [reflexivity | split; reflexivity].
Defined.

Example first_record_line_example :
  first_record_line (universal_newlines (py " a b" ++ [13; 10] ++ py "c"))
  = py "a b".
Proof. vm_compute. reflexivity. Qed.

End RegistryMore.


(** ** More on the prompt hook *)

Section PromptMore.

Import pywen_userprompt.

Lemma extract_prompt_resolved d :
  extract_prompt (JObject d) = Return (resolved_prompt d).
Proof.
  unfold extract_prompt, resolved_prompt, prompt_candidates, nested_prompt,
    lookup_key, PROMPT_KEYS_IN.
  cbn [first_str py_get obind omap list_omap].
  destruct (as_str (default JNull (assoc (py "prompt") d))); [reflexivity|].
  destruct (as_str (default JNull (assoc (py "user_prompt") d)));
    [reflexivity|].
  destruct (as_str (default JNull (assoc (py "userPrompt") d)));
    [reflexivity|].
  destruct (default JNull (assoc (py "input") d)) as [| | | | | |i];
    try reflexivity.
  cbn [is_dict first_str py_get obind as_str].
  destruct (as_str (default JNull (assoc (py "prompt") i))); [reflexivity|].
  destruct (as_str (default JNull (assoc (py "user_prompt") i)));
    [reflexivity|].
  destruct (as_str (default JNull (assoc (py "userPrompt") i)));
    reflexivity.
Qed.

Lemma first_string (l : list json) i v :
  l !! i = Some (JString v) ->
  (forall j x, (j < i)%nat -> l !! j = Some x -> as_str x = None) ->
  head (omap as_str l) = Some v.
Proof.
  revert i. induction l as [|x l IH]; intros i Hi Hbefore.
  - now rewrite lookup_nil in Hi.
  - destruct i as [|i]; simpl in Hi.
    + now injection Hi as ->.
    + cbn [omap list_omap]. rewrite (Hbefore 0%nat x ltac:(lia) eq_refl).
      apply (IH i Hi). intros j y Hj Hy.
      apply (Hbefore (S j) y); [lia | exact Hy].
Qed.

Lemma no_string (l : list json) :
  (forall x, x ∈ l -> as_str x = None) -> omap as_str l = [].
Proof.
  induction l as [|x l IH]; intros H; [reflexivity|].
  cbn [omap list_omap]. rewrite (H x) by left.
  apply IH. intros y Hy. apply H. now right.
Qed.

(** On an event object [extract_prompt] never fails: it returns the
    first value that is a string, the empty string included, among
    prompt, user_prompt, userPrompt at the top level and then the same
    keys under input; when there is none it returns the empty string. *)
Theorem extract_prompt_order d :
  extract_prompt (JObject d) = Return (resolved_prompt d)
  /\ (forall i v,
        prompt_candidates d !! i = Some (JString v) ->
        (forall j x, (j < i)%nat -> prompt_candidates d !! j = Some x ->
                     as_str x = None) ->
        resolved_prompt d = v)
  /\ ((forall x, x ∈ prompt_candidates d -> as_str x = None) ->
      resolved_prompt d = []).
Proof.
  split; [apply extract_prompt_resolved|]. split.
  - intros i v Hi Hbefore. unfold resolved_prompt.
    pose proof (first_string _ _ _ Hi Hbefore) as H.
    destruct (omap as_str (prompt_candidates d)); [discriminate|].
    now injection H.
  - intros H. unfold resolved_prompt. now rewrite (no_string _ H).
Qed.

(** An empty string under [prompt] is taken, so that a declaration under
    a later key is not seen. *)
Example empty_prompt_hides_declaration :
  extract_prompt
    (JObject [(py "prompt", JString []);
              (py "user_prompt", JString (py "CASE_ID=abc"))])
  = Return [].
Proof. reflexivity. Qed.

(** *** What [CASE_RE] matches *)

Lemma match_literal_inv pat s r :
  match_literal pat s = Some r ->
  exists kw, s = kw ++ r
             /\ Forall2 (fun p c => matches_ignorecase p c = true) pat kw.
Proof.
  revert s. induction pat as [|p pat IH]; intros s; simpl.
  - intros [= ->]. exists []. split; [reflexivity | constructor].
  - destruct s as [|c s]; [discriminate|].
    destruct (matches_ignorecase p c) eqn:Hc; [|discriminate].
    intros H. destruct (IH _ H) as (kw & -> & Hkw).
    exists (c :: kw). split; [reflexivity | now constructor].
Qed.

Lemma match_literal_form pat kw r :
  Forall2 (fun p c => matches_ignorecase p c = true) pat kw ->
  match_literal pat (kw ++ r) = Some r.
Proof.
  induction 1 as [|p c pat kw Hc _ IH]; simpl; [reflexivity|].
  now rewrite Hc.
Qed.

Lemma match_star_inv {A} cls s (k : str -> str -> option A) x :
  match_star cls s k = Some x ->
  exists m r, s = m ++ r /\ forallb cls m = true /\ k m r = Some x.
Proof.
  revert k. induction s as [|c s IH]; intros k; simpl.
  - intros H. exists [], []. auto.
  - destruct (cls c) eqn:Hc.
    + destruct (match_star cls s (fun m r => k (c :: m) r)) as [y|] eqn:Hs.
      * intros [= ->]. destruct (IH _ Hs) as (m & r & -> & Hm & Hk).
        exists (c :: m), r. simpl. now rewrite Hc, Hm.
      * intros H. exists [], (c :: s). auto.
    + intros H. exists [], (c :: s). auto.
Qed.

Lemma at_end_space r : at_end r = true -> forallb isspace r = true.
Proof.
  destruct r as [|c [|c' r]]; simpl; try discriminate; [reflexivity|].
  intros H. apply N.eqb_eq in H. now subst c.
Qed.

Lemma CASE_RE_match_inv s tok :
  CASE_RE_match s = Some tok ->
  exists kw ws,
    s = kw ++ tok ++ ws /\ keyword_form kw /\ tok <> []
    /\ is_token_text tok = true /\ forallb isspace ws = true.
Proof.
  unfold CASE_RE_match, match_plus.
  destruct (match_literal (py "CASE_ID=") s) as [r|] eqn:Hl; [|discriminate].
  destruct (match_literal_inv _ _ _ Hl) as (kw & -> & Hkw).
  destruct r as [|c r]; [discriminate|].
  destruct (token_char c) eqn:Hc; [|discriminate].
  intros H. apply match_star_inv in H as (m & r1 & -> & Hm & H).
  apply match_star_inv in H as (ws & r2 & -> & Hws & H).
  destruct (at_end r2) eqn:He; [|discriminate]. injection H as <-.
  exists kw, (ws ++ r2). split; [|split; [|split; [|split]]].
  - reflexivity.
  - exact Hkw.
  - discriminate.
  - unfold is_token_text. simpl. now rewrite Hc, Hm.
  - rewrite forallb_app, Hws. now apply at_end_space.
Qed.

Lemma CASE_RE_match_form kw tok ws :
  keyword_form kw -> tok <> [] -> is_token_text tok = true ->
  forallb isspace ws = true ->
  CASE_RE_match (kw ++ tok ++ ws) = Some tok.
Proof.
  intros Hkw Hne Htok Hws. unfold CASE_RE_match.
  rewrite (match_literal_form _ _ _ Hkw).
  destruct tok as [|c tok]; [congruence|].
  unfold is_token_text in Htok. simpl in Htok.
  apply andb_true_iff in Htok as [Hc Htok].
  cbn [app match_plus]. rewrite Hc.
  apply match_star_run; [exact Htok | now apply space_stops_token |].
  rewrite <- (app_nil_r ws) at 1.
  now apply match_star_run.
Qed.

(** [CASE_RE.match] succeeds with group 1 equal to [tok] exactly on the
    texts made of the keyword (case ignored), then [tok], one or more
    characters that are neither white space nor quotes, then white space
    only up to the end. So a case identifier taken from a prompt is never
    empty and never holds white space or a quote. *)
Theorem CASE_RE_match_iff s tok :
  CASE_RE_match s = Some tok <->
  exists kw ws,
    s = kw ++ tok ++ ws /\ keyword_form kw /\ tok <> []
    /\ is_token_text tok = true /\ forallb isspace ws = true.
Proof.
  split; [apply CASE_RE_match_inv|].
  intros (kw & ws & -> & Hkw & Hne & Htok & Hws).
  now apply CASE_RE_match_form.
Qed.

(** On an event object the prompt hook returns 0 after printing one
    event: the empty one, with the world otherwise untouched, when the
    prompt declares nothing; or the block event after one [put] for the
    resolved session, of a token that is not empty and holds neither
    white space nor quotes. *)
Theorem prompt_main_outcomes E raw d w :
  parse_stdin_json E raw = JObject d ->
  (CASE_RE_match (resolved_prompt d) = None
   /\ main E raw w = (Return 0%Z, set_stdout (stdout w ++ [empty_event]) w))
  \/ (exists tok,
        CASE_RE_match (resolved_prompt d) = Some tok
        /\ tok <> [] /\ is_token_text tok = true
        /\ main E raw w
           = (Return 0%Z,
              set_stdout (stdout w ++ [block_event tok])
                (snd (put E (resolved_session (getpid E) d) tok w)))).
Proof.
  intros Hp. pose proof (extract_prompt_resolved d) as Hx.
  destruct (CASE_RE_match (resolved_prompt d)) as [tok|] eqn:Hm.
  - right. exists tok.
    destruct (CASE_RE_match_inv _ _ Hm) as (_ & _ & _ & _ & Hne & Htok & _).
    repeat split; auto.
    exact (main_declaration E raw d _ tok w Hp Hx Hm).
  - left. split; [reflexivity|].
    exact (main_no_declaration E raw d _ w Hp Hx Hm).
Qed.

Lemma prompt_main_outcomes_witness :
  (CASE_RE_match (resolved_prompt abc123_members) = None
   /\ main E_abc123 [] empty_world
      = (Return 0%Z,
         set_stdout (stdout empty_world ++ [empty_event]) empty_world))
  \/ (exists tok,
        CASE_RE_match (resolved_prompt abc123_members) = Some tok
        /\ tok <> [] /\ is_token_text tok = true
        /\ main E_abc123 [] empty_world
           = (Return 0%Z,
              set_stdout (stdout empty_world ++ [block_event tok])
                (snd (put E_abc123
                        (resolved_session (getpid E_abc123) abc123_members)
                        tok empty_world)))).
Proof. apply prompt_main_outcomes. reflexivity. Defined.

(** Input that [json.loads] refuses is taken as the empty object: the
    prompt hook prints the empty event, returns 0 and records nothing. *)
Theorem prompt_main_unparseable E raw e w :
  json_loads E raw = Raise e ->
  main E raw w = (Return 0%Z, set_stdout (stdout w ++ [empty_event]) w).
Proof.
  intros Hl.
  assert (Hp : parse_stdin_json E raw = JObject []).
  { unfold parse_stdin_json. now rewrite Hl. }
  exact (main_no_declaration E raw [] _ w Hp eq_refl eq_refl).
Qed.

Lemma prompt_main_unparseable_witness :
  main E_unparseable (py "{oops") empty_world
  = (Return 0%Z,
     set_stdout (stdout empty_world ++ [empty_event]) empty_world).
Proof. apply (prompt_main_unparseable _ _ ValueError). reflexivity. Defined.

End PromptMore.


(** ** More on the emitter *)

Section EmitterMore.

Import pywen_stop.

(** The first [try] block changes nothing but what sits at [FIFO_PATH]. *)
Lemma ensure_fifo_world E w :
  exists x, snd (ensure_fifo E w) = set_fifo_path x w.
Proof.
  destruct w as [n fs fl cd so].
  unfold ensure_fifo, fifo_exists, fifo_is_fifo, fifo_unlink, os_mkfifo,
    bind, gets, modify, fault, ret, raise, set_fifo_path.
  destruct (fifo_exists_fault E), (fifo_is_fifo_fault E),
    (fifo_unlink_fault E), (mkfifo_fault E), n as [[| |]|];
    simpl; eexists; reflexivity.
Qed.

Lemma ensure_fifo_return E w w1 :
  ensure_fifo E w = (Return tt, w1) -> fifo_path w1 = Some Fifo.
Proof.
  destruct w as [n fs fl cd so].
  unfold ensure_fifo, fifo_exists, fifo_is_fifo, fifo_unlink, os_mkfifo,
    bind, gets, modify, fault, ret, raise, set_fifo_path.
  destruct (fifo_exists_fault E), (fifo_is_fifo_fault E),
    (fifo_unlink_fault E), (mkfifo_fault E), n as [[| |]|];
    simpl; intros [= <-]; reflexivity.
Qed.

(** When the first [try] block falls through, a named pipe sits at
    [FIFO_PATH], and nothing else has changed. *)
Theorem ensure_fifo_makes_fifo E w w1 :
  ensure_fifo E w = (Return tt, w1) ->
  w1 = set_fifo_path (Some Fifo) w.
Proof.
  intros H. pose proof (ensure_fifo_return _ _ _ H) as Hf.
  destruct (ensure_fifo_world E w) as [x Hx]. rewrite H in Hx. simpl in Hx.
  subst w1. simpl in Hf. now rewrite Hf.
Qed.

Lemma ensure_fifo_makes_fifo_witness :
  fifo_world = set_fifo_path (Some Fifo) empty_world.
Proof. apply (ensure_fifo_makes_fifo E_quiet). reflexivity. Defined.

(** A pipe that is already there is reused as it is. *)
Theorem ensure_fifo_reuses_fifo E w :
  fifo_path w = Some Fifo ->
  fifo_exists_fault E = None ->
  fifo_is_fifo_fault E = None ->
  ensure_fifo E w = (Return tt, w).
Proof.
  intros Hn He Hf.
  unfold ensure_fifo, fifo_exists, fifo_is_fifo, bind, gets, fault, ret.
  rewrite He, Hf. repeat (simpl; rewrite ?Hn). reflexivity.
Qed.

Lemma ensure_fifo_reuses_fifo_witness :
  ensure_fifo E_quiet fifo_world = (Return tt, fifo_world).
Proof. apply ensure_fifo_reuses_fifo; reflexivity. Defined.

(** A regular file at [FIFO_PATH] is unlinked, its content lost, and a
    pipe is made in its place. *)
Theorem ensure_fifo_replaces_file E w content :
  fifo_path w = Some (RegularFile content) ->
  fifo_exists_fault E = None ->
  fifo_is_fifo_fault E = None ->
  fifo_unlink_fault E = None ->
  mkfifo_fault E = None ->
  ensure_fifo E w = (Return tt, set_fifo_path (Some Fifo) w).
Proof.
  intros Hn He Hf Hu Hm. destruct w as [n fs fl cd so]. simpl in Hn. subst n.
  unfold ensure_fifo, fifo_exists, fifo_is_fifo, fifo_unlink, os_mkfifo,
    bind, gets, modify, fault, ret, raise, set_fifo_path.
  rewrite He, Hf, Hu, Hm. reflexivity.
Qed.

Lemma ensure_fifo_replaces_file_witness :
  ensure_fifo E_quiet (World (Some (RegularFile (py "x"))) [] None ∅ [])
  = (Return tt,
     set_fifo_path (Some Fifo)
       (World (Some (RegularFile (py "x"))) [] None ∅ [])).
Proof. apply (ensure_fifo_replaces_file _ _ (py "x")); reflexivity. Defined.

(** A directory at [FIFO_PATH] is never removed: the first [try] block
    raises, and [write_done] answers [file] after its fallback append. *)
Theorem write_done_directory E case_id w :
  fifo_path w = Some Directory ->
  write_done E case_id w
  = (Return (py "file"), snd (log_append E (done_line case_id) w))
  /\ fifo_path (snd (write_done E case_id w)) = Some Directory.
Proof.
  intros Hn.
  assert (He : exists e, ensure_fifo E w = (Raise e, w)).
  { destruct w as [n fs fl cd so]. simpl in Hn. subst n.
    unfold ensure_fifo, fifo_exists, fifo_is_fifo, fifo_unlink, os_mkfifo,
      bind, gets, modify, fault, ret, raise, set_fifo_path.
    destruct (fifo_exists_fault E), (fifo_is_fifo_fault E),
      (fifo_unlink_fault E); simpl; eexists; reflexivity. }
  destruct He as [e He].
  assert (Hw : write_done E case_id w
               = (Return (py "file"),
                  snd (log_append E (done_line case_id) w))).
  { apply write_done_fallback. unfold fallback_entry. now rewrite He. }
  split; [exact Hw|]. rewrite Hw. cbn [snd].
  unfold log_append, str_encode, bind, modify, os_fault, ret, raise.
  destruct (log_open_fault E), (utf8_encode (done_line case_id)),
    (log_flush_fault E); exact Hn.
Qed.

Lemma write_done_directory_witness :
  write_done E_quiet (py "X") (World (Some Directory) [] None ∅ [])
  = (Return (py "file"),
     snd (log_append E_quiet (done_line (py "X"))
            (World (Some Directory) [] None ∅ [])))
  /\ fifo_path (snd (write_done E_quiet (py "X")
                       (World (Some Directory) [] None ∅ [])))
     = Some Directory.
Proof. apply write_done_directory. reflexivity. Defined.

(** Of a record the pipe takes a prefix, and all of it when the record is
    no longer than PIPE_BUF. *)
Lemma pipe_write_prefix E bs written :
  pipe_write E bs = Some written ->
  (exists n, written = firstn n bs)
  /\ ((length bs <= pipe_buf E)%nat -> written = bs).
Proof.
  unfold pipe_write. destruct (pipe_accepts E) as [k|].
  - destruct (Nat.leb_spec (length bs) k) as [Hk|Hk].
    + intros [= <-]. split; [|auto].
      exists (length bs). symmetry. apply firstn_all.
    + destruct (Nat.leb_spec (length bs) (pipe_buf E)) as [Hb|Hb];
        [discriminate|].
      destruct k as [|k]; [discriminate|]. intros [= <-].
      split; [eauto | lia].
  - intros [= <-]. split; [|auto].
    exists (length bs). symmetry. apply firstn_all.
Qed.

(** What the second [try] block does on a pipe when it returns. *)
Lemma write_fifo_return E case_id w v w2 :
  fifo_path w = Some Fifo ->
  write_fifo E case_id w = (Return v, w2) ->
  exists bs written,
    utf8_encode (done_line case_id) = Some bs
    /\ pipe_write E bs = Some written
    /\ w2 = set_fifo_stream (fifo_stream w ++ written) w
    /\ v = py "fifo".
Proof.
  intros Hn.
  unfold write_fifo, os_open, os_write, os_close, try_finally, str_encode,
    bind, gets, modify, os_fault, ret, raise.
  destruct (fifo_open_fault E), (fifo_write_fault E), (fifo_close_fault E),
    (utf8_encode (done_line case_id)) as [bs|];
    repeat (simpl; rewrite ?Hn); try discriminate;
    destruct (pipe_write E bs) as [written|] eqn:Hp;
    repeat (simpl; rewrite ?Hn); try discriminate.
  intros [= <- <-]. eauto 10.
Qed.

(** [fifo] is returned only after one [os.write] of the record into the
    pipe. The pipe then holds what that call took: the whole record when
    it is no longer than PIPE_BUF, possibly only a prefix of a longer
    one, since the count the call returns is not looked at. A pipe sits
    at [FIFO_PATH] and nothing else has changed; the log is left alone. *)
Theorem write_done_fifo_delivers E case_id w w' :
  write_done E case_id w = (Return (py "fifo"), w') ->
  exists bs written,
    utf8_encode (case_id ++ py " DONE" ++ [0x0A]) = Some bs
    /\ pipe_write E bs = Some written
    /\ (exists n, written = firstn n bs)
    /\ ((length bs <= pipe_buf E)%nat -> written = bs)
    /\ w' = set_fifo_stream (fifo_stream w ++ written)
              (set_fifo_path (Some Fifo) w).
Proof.
  rewrite write_done_eval.
  destruct (ensure_fifo E w) as [[[]|e] w1] eqn:He.
  2:{ rewrite fallback_eval. discriminate. }
  pose proof (ensure_fifo_makes_fifo _ _ _ He) as ->.
  destruct (write_fifo E case_id (set_fifo_path (Some Fifo) w))
    as [[v|e] w2] eqn:Hw.
  - intros [= -> <-].
    destruct (write_fifo_return E case_id (set_fifo_path (Some Fifo) w) _ _
                (eq_refl (Some Fifo)) Hw)
      as (bs & written & Hbs & Hp & -> & _).
    destruct (pipe_write_prefix _ _ _ Hp) as [Hpre Hall].
    exists bs, written. repeat split; auto.
  - destruct (is_OSError e); [|discriminate].
    rewrite fallback_eval. discriminate.
Qed.

Lemma write_done_fifo_delivers_witness :
  exists bs written,
    utf8_encode (py "X" ++ py " DONE" ++ [0x0A]) = Some bs
    /\ pipe_write E_quiet bs = Some written
    /\ (exists n, written = firstn n bs)
    /\ ((length bs <= pipe_buf E_quiet)%nat -> written = bs)
    /\ set_fifo_stream (py "X DONE" ++ [0x0A]) fifo_world
       = set_fifo_stream (fifo_stream fifo_world ++ written)
           (set_fifo_path (Some Fifo) fifo_world).
Proof.
  apply (write_done_fifo_delivers E_quiet (py "X") fifo_world). reflexivity.
Defined.

End EmitterMore.


Section EmitterEdges.

Import pywen_stop.

(** What a fallback append that succeeds leaves. *)
Lemma log_append_world E text bs w :
  log_open_fault E = false ->
  log_flush_fault E = None ->
  utf8_encode text = Some bs ->
  log_append E text w
  = (Return tt,
     set_fallback_log (Some (default [] (fallback_log w) ++ bs)) w).
Proof.
  intros Ho Hf Hb.
  unfold log_append, str_encode, bind, modify, os_fault, ret, raise.
  rewrite Ho. cbv beta iota. rewrite Hb. cbv beta iota. rewrite Hf.
  unfold log_extend, set_fallback_log. simpl. now rewrite app_nil_r.
Qed.

(** With a pipe in place and no call refused, the record is handed to
    [os.write] once and [fifo] is returned; the pipe receives what that
    call took, which is the whole record when it is no longer than
    PIPE_BUF, and nothing else changes. *)
Theorem write_done_preferred E case_id bs written w :
  fifo_path w = Some Fifo ->
  fifo_exists_fault E = None ->
  fifo_is_fifo_fault E = None ->
  fifo_open_fault E = false ->
  fifo_write_fault E = false ->
  fifo_close_fault E = false ->
  utf8_encode (case_id ++ py " DONE" ++ [0x0A]) = Some bs ->
  pipe_write E bs = Some written ->
  write_done E case_id w
  = (Return (py "fifo"), set_fifo_stream (fifo_stream w ++ written) w)
  /\ ((length bs <= pipe_buf E)%nat -> written = bs).
Proof.
  intros Hn He Hf Ho Hw Hc Hb Hp.
  split; [|exact (proj2 (pipe_write_prefix _ _ _ Hp))].
  rewrite write_done_eval, (ensure_fifo_reuses_fifo _ _ Hn He Hf).
  unfold write_fifo, os_open, os_write, os_close, try_finally, str_encode,
    bind, gets, modify, os_fault, ret, raise, done_line.
  rewrite Hn. cbv beta iota. rewrite Ho. cbv beta iota.
  rewrite Hb. cbv beta iota. rewrite Hw. cbv beta iota.
  rewrite Hn, Hp. cbv beta iota. rewrite Hc. reflexivity.
Qed.

Lemma write_done_preferred_witness :
  write_done E_quiet (py "X") fifo_world
  = (Return (py "fifo"),
     set_fifo_stream (fifo_stream fifo_world ++ py "X DONE" ++ [0x0A])
       fifo_world)
  /\ ((length (py "X DONE" ++ [0x0A%N]) <= pipe_buf E_quiet)%nat ->
      py "X DONE" ++ [0x0A] = py "X DONE" ++ [0x0A]).
Proof. apply write_done_preferred; reflexivity. Defined.

(** A record longer than PIPE_BUF that the pipe has no room for: the
    pipe takes the first 100 bytes, the rest is dropped, and [fifo] is
    returned all the same. *)
Example write_done_cut_record :
  write_done E_narrow_pipe long_case_id fifo_world
  = (Return (py "fifo"),
     set_fifo_stream (firstn 100 long_case_id) fifo_world).
Proof. vm_compute. reflexivity. Qed.

(** When opening the pipe is refused (no reader has it open), nothing
    goes into the pipe, the record is appended to the log and [file] is
    returned. *)
Theorem write_done_no_reader E case_id bs w :
  fifo_path w = Some Fifo ->
  fifo_exists_fault E = None ->
  fifo_is_fifo_fault E = None ->
  fifo_open_fault E = true ->
  log_open_fault E = false ->
  log_flush_fault E = None ->
  utf8_encode (case_id ++ py " DONE" ++ [0x0A]) = Some bs ->
  write_done E case_id w
  = (Return (py "file"),
     set_fallback_log (Some (default [] (fallback_log w) ++ bs)) w).
Proof.
  intros Hn He Hf Ho Hlo Hlf Hb.
  assert (Hent : fallback_entry E case_id w = Some w).
  { unfold fallback_entry.
    rewrite (ensure_fifo_reuses_fifo _ _ Hn He Hf).
    unfold write_fifo, os_open, bind, gets, os_fault, raise.
    rewrite Hn. cbv beta iota. rewrite Ho. reflexivity. }
  rewrite (write_done_fallback _ _ _ _ Hent).
  now rewrite (log_append_world _ _ bs _ Hlo Hlf Hb).
Qed.

Lemma write_done_no_reader_witness :
  write_done E_no_reader (py "X") fifo_world
  = (Return (py "file"),
     set_fallback_log
       (Some (default [] (fallback_log fifo_world) ++ py "X DONE" ++ [0x0A]))
       fifo_world).
Proof. apply write_done_no_reader; reflexivity. Defined.

(** When the write into the pipe succeeds and closing the descriptor
    then fails, the [OSError] of [os.close] sends [write_done] to its
    fallback: the record is delivered twice, what [os.write] took of it
    into the pipe and the whole line into the log, and [file] is
    returned. *)
Theorem write_done_close_failure_duplicates E case_id bs written w :
  fifo_path w = Some Fifo ->
  fifo_exists_fault E = None ->
  fifo_is_fifo_fault E = None ->
  fifo_open_fault E = false ->
  fifo_write_fault E = false ->
  fifo_close_fault E = true ->
  log_open_fault E = false ->
  log_flush_fault E = None ->
  utf8_encode (case_id ++ py " DONE" ++ [0x0A]) = Some bs ->
  pipe_write E bs = Some written ->
  write_done E case_id w
  = (Return (py "file"),
     set_fallback_log (Some (default [] (fallback_log w) ++ bs))
       (set_fifo_stream (fifo_stream w ++ written) w)).
Proof.
  intros Hn He Hf Ho Hw Hc Hlo Hlf Hb Hp.
  assert (Hent : fallback_entry E case_id w
                 = Some (set_fifo_stream (fifo_stream w ++ written) w)).
  { unfold fallback_entry.
    rewrite (ensure_fifo_reuses_fifo _ _ Hn He Hf).
    unfold write_fifo, os_open, os_write, os_close, try_finally, str_encode,
      bind, gets, modify, os_fault, ret, raise, done_line.
    rewrite Hn. cbv beta iota. rewrite Ho. cbv beta iota.
    rewrite Hb. cbv beta iota. rewrite Hw. cbv beta iota.
    rewrite Hn, Hp. cbv beta iota. rewrite Hc. reflexivity. }
  rewrite (write_done_fallback _ _ _ _ Hent).
  now rewrite (log_append_world _ _ bs _ Hlo Hlf Hb).
Qed.

Lemma write_done_close_failure_duplicates_witness :
  write_done E_close_fault (py "X") fifo_world
  = (Return (py "file"),
     set_fallback_log
       (Some (default [] (fallback_log fifo_world) ++ py "X DONE" ++ [0x0A]))
       (set_fifo_stream (fifo_stream fifo_world ++ py "X DONE" ++ [0x0A])
          fifo_world)).
Proof. apply write_done_close_failure_duplicates; reflexivity. Defined.

(** What the second [try] block and the fallback append can leave. *)
Lemma write_fifo_world E case_id w :
  fifo_path w = Some Fifo ->
  exists extra,
    snd (write_fifo E case_id w)
    = set_fifo_stream (fifo_stream w ++ extra) w.
Proof.
  intros Hn. destruct w as [n fs fl cd so]. simpl in Hn. subst n.
  unfold write_fifo, os_open, os_write, os_close, try_finally, str_encode,
    bind, gets, modify, os_fault, ret, raise, set_fifo_stream.
  destruct (fifo_open_fault E), (fifo_write_fault E), (fifo_close_fault E),
    (utf8_encode (done_line case_id)) as [bs|]; simpl;
    try (destruct (pipe_write E bs); simpl);
    first [ exists []; rewrite app_nil_r; reflexivity
          | eexists; reflexivity ].
Qed.

Lemma log_append_grows E text w :
  snd (log_append E text w) = w
  \/ exists extra,
       snd (log_append E text w)
       = set_fallback_log (Some (default [] (fallback_log w) ++ extra)) w.
Proof.
  unfold log_append, str_encode, bind, modify, os_fault, ret, raise,
    log_extend, set_fallback_log.
  destruct (log_open_fault E); [now left|]. right.
  destruct w as [n0 fs fl cd so].
  destruct (utf8_encode text) as [bs|]; [destruct (log_flush_fault E) as [n|]|];
    simpl; rewrite ?app_nil_r.
  - now exists (firstn n bs).
  - now exists bs.
  - exists []. now rewrite app_nil_r.
Qed.

(** Whatever happens, [write_done] leaves the registry and the printed
    output alone, and the pipe and the log only grow at their end. *)
Theorem write_done_frame E case_id w :
  case_dir (snd (write_done E case_id w)) = case_dir w
  /\ stdout (snd (write_done E case_id w)) = stdout w
  /\ (exists extra,
        fifo_stream (snd (write_done E case_id w))
        = fifo_stream w ++ extra)
  /\ (fallback_log (snd (write_done E case_id w)) = fallback_log w
      \/ exists extra,
           fallback_log (snd (write_done E case_id w))
           = Some (default [] (fallback_log w) ++ extra)).
Proof.
  rewrite write_done_eval.
  assert (Hfb : forall w0 : world,
            case_dir w0 = case_dir w -> stdout w0 = stdout w ->
            (exists extra, fifo_stream w0 = fifo_stream w ++ extra) ->
            fallback_log w0 = fallback_log w ->
            let w' := snd (fallback E case_id w0) in
            case_dir w' = case_dir w /\ stdout w' = stdout w
            /\ (exists extra, fifo_stream w' = fifo_stream w ++ extra)
            /\ (fallback_log w' = fallback_log w
                \/ exists extra,
                     fallback_log w'
                     = Some (default [] (fallback_log w) ++ extra))).
  { intros w0 Hc Hs Hf Hl w'. subst w'. rewrite fallback_eval. cbn [snd].
    destruct (log_append_grows E (done_line case_id) w0) as [-> | [x ->]];
      simpl; rewrite <- ?Hl; auto 10.
    repeat split; auto. right. now exists x. }
  destruct (ensure_fifo E w) as [[[]|e] w1] eqn:He.
  2:{ destruct (ensure_fifo_world E w) as [x Hx]. rewrite He in Hx.
      simpl in Hx. subst w1. apply Hfb; try reflexivity.
      exists []. simpl. now rewrite app_nil_r. }
  pose proof (ensure_fifo_makes_fifo _ _ _ He) as ->.
  destruct (write_fifo_world E case_id (set_fifo_path (Some Fifo) w)
              (eq_refl (Some Fifo))) as [extra Hx].
  destruct (write_fifo E case_id (set_fifo_path (Some Fifo) w))
    as [[v|e] w2]; simpl in Hx; subst w2.
  - simpl. repeat split; eauto.
  - destruct (is_OSError e).
    + apply Hfb; try reflexivity. now exists extra.
    + simpl. repeat split; eauto.
Qed.

End EmitterEdges.


(** ** The Stop hook, and the two hooks together *)

Section StopMore.

Import pywen_stop.

Lemma stop_main_parts E raw d w :
  parse_stdin_json E raw = JObject d ->
  exists case_id mode w1,
    read_case_id E (resolved_session (getpid E) d) w = (Return case_id, w)
    /\ write_done E case_id w = (Return mode, w1)
    /\ (mode = py "fifo" \/ mode = py "file")
    /\ main E raw w
       = (Return 0%Z,
          set_stdout (stdout w ++ [done_event case_id mode]) w1).
Proof.
  intros Hp. unfold main. rewrite Hp. unfold bind at 1, lift.
  rewrite extract_session_id_resolved.
  destruct (read_case_id_encodable E (resolved_session (getpid E) d) w)
    as (c & Hc & Henc).
  unfold bind at 1. rewrite Hc.
  pose proof (write_done_encodable E c w Henc) as Hm.
  pose proof (write_done_stdout E c w) as Hs.
  unfold bind at 1.
  destruct (write_done E c w) as [[mode|e] w2] eqn:Hd; simpl in Hm, Hs.
  - exists c, mode, w2. split; [reflexivity|]. split; [exact Hd|]. split.
    + destruct Hm as [[= ->] | [= ->]]; auto.
    + unfold bind, print, modify, ret, done_event. cbn [stdout snd fst].
      now rewrite Hs.
  - destruct Hm as [Hm | Hm]; discriminate Hm.
Qed.

Lemma write_done_case_dir E case_id w :
  case_dir (snd (write_done E case_id w)) = case_dir w.
Proof.
  rewrite write_done_eval.
  assert (Hl : forall w0, case_dir (snd (fallback E case_id w0)) = case_dir w0).
  { intros w0. rewrite fallback_eval. cbn [snd].
    destruct (log_append_grows E (done_line case_id) w0) as [-> | [x ->]];
      reflexivity. }
  destruct (ensure_fifo E w) as [[[]|e] w1] eqn:He.
  2:{ destruct (ensure_fifo_world E w) as [x Hx]. rewrite He in Hx.
      simpl in Hx. subst w1. now rewrite Hl. }
  destruct (ensure_fifo_world E w) as [y Hy]. rewrite He in Hy.
  simpl in Hy. subst w1.
  pose proof (ensure_fifo_return _ _ _ He) as Hn.
  destruct (write_fifo_world E case_id _ Hn) as [extra Hx].
  destruct (write_fifo E case_id (set_fifo_path y w)) as [[v|e] w2];
    simpl in Hx; subst w2; [reflexivity|].
  destruct (is_OSError e); [now rewrite Hl | reflexivity].
Qed.

(** On an event object (or input that does not parse) the Stop hook is
    the composition of its parts: it reads the case of the resolved
    session, emits the record for it, prints one event that names the
    case and the channel, and returns 0. It never changes the registry. *)
Theorem stop_main_composition E raw d w :
  parse_stdin_json E raw = JObject d ->
  exists case_id mode w1,
    read_case_id E (resolved_session (getpid E) d) w = (Return case_id, w)
    /\ write_done E case_id w = (Return mode, w1)
    /\ (mode = py "fifo" \/ mode = py "file")
    /\ main E raw w
       = (Return 0%Z,
          set_stdout (stdout w ++ [done_event case_id mode]) w1)
    /\ case_dir (snd (main E raw w)) = case_dir w.
Proof.
  intros Hp.
  destruct (stop_main_parts E raw d w Hp)
    as (c & mode & w1 & Hc & Hd & Hm & Hmain).
  exists c, mode, w1. repeat split; auto.
  rewrite Hmain. simpl.
  pose proof (write_done_case_dir E c w) as H. now rewrite Hd in H.
Qed.

Lemma stop_main_composition_witness :
  exists case_id mode w1,
    read_case_id E_unparseable
      (resolved_session (getpid E_unparseable) []) empty_world
    = (Return case_id, empty_world)
    /\ write_done E_unparseable case_id empty_world = (Return mode, w1)
    /\ (mode = py "fifo" \/ mode = py "file")
    /\ main E_unparseable (py "{oops") empty_world
       = (Return 0%Z,
          set_stdout (stdout empty_world ++ [done_event case_id mode]) w1)
    /\ case_dir (snd (main E_unparseable (py "{oops") empty_world))
       = case_dir empty_world.
Proof. apply stop_main_composition. reflexivity. Defined.

(** A token is its own record line. *)
Lemma first_record_line_token tok :
  tok <> [] -> is_token_text tok = true -> first_record_line tok = tok.
Proof.
  intros Hne Htok. unfold first_record_line, first_line.
  rewrite (strip_token _ Htok). destruct tok as [|c r]; [congruence|].
  rewrite (splitlines_token _ Htok) by discriminate.
  cbn [hd]. apply (strip_token _ Htok).
Qed.

(** The two hooks together: when the prompt hook accepts a declaration
    and its backing write succeeds, a later Stop hook whose event resolves
    to the same session, and whose reads succeed, emits the record for
    exactly the declared case and names it in its event. *)
Theorem declared_case_is_reported E1 raw1 d1 E2 raw2 d2 tok w :
  pywen_userprompt.parse_stdin_json E1 raw1 = JObject d1 ->
  pywen_userprompt.CASE_RE_match (resolved_prompt d1) = Some tok ->
  write_succeeds E1 (resolved_session (getpid E1) d1) tok w ->
  parse_stdin_json E2 raw2 = JObject d2 ->
  resolved_session (getpid E2) d2 = resolved_session (getpid E1) d1 ->
  read_succeeds E2 ->
  exists mode w2,
    write_done E2 tok (snd (pywen_userprompt.main E1 raw1 w))
    = (Return mode, w2)
    /\ (mode = py "fifo" \/ mode = py "file")
    /\ main E2 raw2 (snd (pywen_userprompt.main E1 raw1 w))
       = (Return 0%Z,
          set_stdout (stdout w ++ [block_event tok; done_event tok mode])
            w2).
Proof.
  intros Hp1 Hm Hw Hp2 Hsid [Hex Hrd].
  rewrite (main_declaration E1 raw1 d1 _ tok w Hp1
             (extract_prompt_resolved d1) Hm). cbn [snd].
  set (sid := resolved_session (getpid E1) d1) in *.
  destruct (write_session_case_success _ _ _ _ Hw) as (bs & Hbs & Hfile).
  set (w1 := set_stdout (stdout w ++ [block_event tok])
               (snd (put E1 sid tok w))).
  destruct (CASE_RE_match_inv _ _ Hm) as (_ & _ & _ & _ & Hne & Htok & _).
  destruct (stop_main_parts E2 raw2 d2 w1 Hp2)
    as (c & mode & w2 & Hc & Hd & Hmode & Hmain).
  rewrite Hsid in Hc. rewrite read_case_id_record, Hex, Hrd in Hc.
  assert (Hl : case_dir w1 !! case_file sid = Some bs) by exact Hfile.
  rewrite Hl in Hc. injection Hc as Hc.
  rewrite (file_text_token _ _ Htok Hbs),
    (first_record_line_token _ Hne Htok) in Hc. subst c.
  exists mode, w2. split; [exact Hd|]. split; [exact Hmode|].
  rewrite Hmain. unfold w1. simpl. now rewrite <- app_assoc.
Qed.

Lemma declared_case_is_reported_witness :
  exists mode w2,
    write_done (quiet_env (loads_const (JObject s1_members))) (py "XYZ")
      (snd (pywen_userprompt.main
              (quiet_env (loads_const (JObject xyz_members)))
              (py "{}") empty_world))
    = (Return mode, w2)
    /\ (mode = py "fifo" \/ mode = py "file")
    /\ main (quiet_env (loads_const (JObject s1_members))) (py "{}")
         (snd (pywen_userprompt.main
                 (quiet_env (loads_const (JObject xyz_members)))
                 (py "{}") empty_world))
       = (Return 0%Z,
          set_stdout
            (stdout empty_world
               ++ [block_event (py "XYZ"); done_event (py "XYZ") mode])
            w2).
Proof.
  apply (declared_case_is_reported
           (quiet_env (loads_const (JObject xyz_members))) (py "{}")
           xyz_members
           (quiet_env (loads_const (JObject s1_members))) (py "{}")
           s1_members (py "XYZ") empty_world).
  - reflexivity.
  - reflexivity.
  - reflexivity.
  - reflexivity.
  - reflexivity.
  - split; reflexivity.
Defined.

End StopMore.

(** ** Identifiers made from the process id *)

Lemma py_injective s t : py s = py t -> s = t.
Proof.
  unfold py. intros H.
  rewrite <- (string_of_list_ascii_of_string s),
    <- (string_of_list_ascii_of_string t). f_equal.
  revert H. generalize (list_ascii_of_string s) (list_ascii_of_string t).
  intros l. induction l as [|a l IH]; intros [|b m]; simpl; try discriminate.
  - reflexivity.
  - intros [= Hab Hlm]. f_equal; [|now apply IH].
    rewrite <- (ascii_N_embedding a), <- (ascii_N_embedding b). now f_equal.
Qed.

Lemma to_uint_nonnil n : N.to_uint n <> Decimal.Nil.
Proof.
  destruct n as [|p]; [discriminate|].
  apply DecimalPos.Unsigned.to_uint_nonnil.
Qed.

Lemma str_of_int_injective m n : str_of_int m = str_of_int n -> m = n.
Proof.
  unfold str_of_int. intros H. apply py_injective in H.
  apply (f_equal DecimalString.NilZero.uint_of_string) in H.
  rewrite !DecimalString.NilZero.usu in H by apply to_uint_nonnil.
  injection H as H. now apply DecimalN.Unsigned.to_uint_inj.
Qed.

Lemma split_slash_plain s : no_slash s = true -> split_slash s = [s].
Proof.
  induction s as [|c r IH]; [reflexivity|]. simpl.
  intros [Hc Hr]%andb_prop. rewrite (IH Hr).
  now destruct (c =? 0x2F).
Qed.

Lemma path_root_plain c s :
  (c =? 0x2F) = false -> path_root (c :: s) = [].
Proof. intros Hc. destruct s as [|b [|d s]]; simpl; now rewrite Hc. Qed.

(** A name without a slash that is not [.] is a path as it stands. *)
Lemma pure_path_plain s :
  no_slash s = true -> s <> [] -> s <> [0x2E] -> pure_path s = s.
Proof.
  intros Hs Hn Hd. unfold pure_path, path_parts.
  rewrite (split_slash_plain s Hs). simpl.
  unfold is_part. rewrite !bool_decide_eq_false_2 by assumption. simpl.
  destruct s as [|c r]; [congruence|].
  simpl in Hs. apply andb_prop in Hs as [Hc _].
  apply negb_true_iff in Hc. now rewrite (path_root_plain c r Hc).
Qed.

Lemma no_slash_app s t : no_slash (s ++ t) = no_slash s && no_slash t.
Proof. apply forallb_app. Qed.

Lemma no_slash_digits d :
  no_slash (py (DecimalString.NilZero.string_of_uint d)) = true.
Proof.
  assert (H : forall d',
             no_slash (py (DecimalString.NilEmpty.string_of_uint d')) = true)
    by (intros d'; induction d'; simpl; auto).
  destruct d; [reflexivity | apply H ..].
Qed.

Lemma case_file_pid n :
  case_file (py "pid_" ++ str_of_int n) = py "pid_" ++ str_of_int n ++ py ".case".
Proof.
  unfold case_file. rewrite <- !app_assoc. apply pure_path_plain.
  - rewrite !no_slash_app. unfold str_of_int. rewrite no_slash_digits.
    reflexivity.
  - discriminate.
  - discriminate.
Qed.

(** [pathlib] drops the part [.] and doubled slashes, keeps [..] and lets
    a rooted name stand for itself. *)
Example case_file_dot : case_file (py "./S1") = case_file (py "S1").
Proof. reflexivity. Qed.

Example case_file_slashes :
  case_file (py "a//b/./c") = py "a/b/c.case".
Proof. reflexivity. Qed.

Example case_file_rooted : case_file (py "///tmp/x") = py "/tmp/x.case".
Proof. reflexivity. Qed.

Example case_file_parent : case_file (py "../x") = py "../x.case".
Proof. reflexivity. Qed.

(** When an event names no usable session, the identifier is made from
    the process id alone: two processes with different ids resolve to
    different sessions, whatever their events hold, so the Stop hook of one
    process does not look up what the prompt hook of another recorded. *)
Theorem synthesized_ids_differ E1 E2 d1 d2 :
  omap as_nonempty_str (session_candidates d1) = [] ->
  omap as_nonempty_str (session_candidates d2) = [] ->
  getpid E1 <> getpid E2 ->
  pywen_userprompt.extract_session_id E1 (JObject d1)
  <> pywen_stop.extract_session_id E2 (JObject d2)
  /\ case_file (resolved_session (getpid E1) d1)
     <> case_file (resolved_session (getpid E2) d2).
Proof.
  intros H1 H2 Hpid.
  rewrite extract_session_id_resolved_prompt, extract_session_id_resolved.
  unfold resolved_session. rewrite H1, H2.
  assert (Hne : py "pid_" ++ str_of_int (getpid E1)
                <> py "pid_" ++ str_of_int (getpid E2)).
  { intros H. apply app_inv_head in H. now apply str_of_int_injective in H. }
  split.
  - intros H. apply Hne. congruence.
  - rewrite !case_file_pid. intros H. apply Hne.
    apply app_inv_head in H. apply app_inv_tail in H. now rewrite H.
Qed.

Lemma synthesized_ids_differ_witness :
  pywen_userprompt.extract_session_id E_quiet (JObject [])
  <> pywen_stop.extract_session_id E_other_pid
       (JObject [(py "session_id", JInt 7)])
  /\ case_file (resolved_session (getpid E_quiet) [])
     <> case_file (resolved_session (getpid E_other_pid)
                     [(py "session_id", JInt 7)]).
Proof.
  apply synthesized_ids_differ; [reflexivity | reflexivity | discriminate].
Defined.


Section Degraded.

Import pywen_stop.

(** When nothing sits at [FIFO_PATH] and the pipe cannot be made
    ([os.mkfifo] raises, whatever the exception, as where the platform has
    no such call), nothing is created and [write_done] answers [file]
    after its fallback append. *)
Theorem write_done_cannot_create E case_id e w :
  fifo_path w = None ->
  fifo_exists_fault E = None ->
  mkfifo_fault E = Some e ->
  write_done E case_id w
  = (Return (py "file"), snd (log_append E (done_line case_id) w)).
Proof.
  intros Hn He Hm. apply write_done_fallback.
  unfold fallback_entry, ensure_fifo, fifo_exists, os_mkfifo, bind, gets,
    fault, ret, raise.
  rewrite He. repeat (simpl; rewrite ?Hn). rewrite Hm. reflexivity.
Qed.

Lemma write_done_cannot_create_witness :
  write_done E_no_fifo (py "X") empty_world
  = (Return (py "file"),
     snd (log_append E_no_fifo (done_line (py "X")) empty_world)).
Proof. apply (write_done_cannot_create _ _ OSError); reflexivity. Defined.

(** A session that has no record file: the Stop hook emits the record
    for [UNKNOWN] and names [UNKNOWN] in its event. *)
Theorem stop_main_undeclared E raw d w :
  parse_stdin_json E raw = JObject d ->
  case_dir w !! case_file (resolved_session (getpid E) d) = None ->
  exists mode w1,
    write_done E UNKNOWN w = (Return mode, w1)
    /\ main E raw w
       = (Return 0%Z, set_stdout (stdout w ++ [done_event UNKNOWN mode]) w1).
Proof.
  intros Hp Hl.
  destruct (stop_main_parts E raw d w Hp)
    as (c & mode & w1 & Hc & Hd & _ & Hmain).
  rewrite read_case_id_record, Hl in Hc.
  assert (c = UNKNOWN) as ->.
  { destruct (case_exists_fault E); now injection Hc. }
  eauto.
Qed.

Lemma stop_main_undeclared_witness :
  exists mode w1,
    write_done (quiet_env (loads_const (JObject s1_members))) UNKNOWN
      empty_world
    = (Return mode, w1)
    /\ main (quiet_env (loads_const (JObject s1_members))) (py "{}")
         empty_world
       = (Return 0%Z,
          set_stdout (stdout empty_world ++ [done_event UNKNOWN mode]) w1).
Proof.
  apply (stop_main_undeclared _ _ s1_members); reflexivity.
Defined.

End Degraded.
